(** * anonipy: the pseudonymization strategy and the pipeline

    A shallow embedding of [PseudonymizationStrategy]
    (anonipy/anonymize/strategies/pseudonymization.py) and the properties
    of its [anonymize] method: processing order, splicing, reuse of
    replacements, the audit trail, and the propagation of generator
    failures; and of [Pipeline] (anonipy/pipeline.py), which runs a
    strategy over the files of a directory: which files it passes over,
    how it numbers the files it writes, and when it refuses to run. *)

From Stdlib Require Import ZArith List String Ascii Bool Lia.
From Stdlib Require Import Sorted Permutation.
From Stdlib Require DecimalString DecimalNat.
Import ListNotations.

Local Open Scope string_scope.
Local Open Scope list_scope.
Local Open Scope Z_scope.

(** ** The fragments of the Python runtime the strategy relies on *)

Module Py.

(** Index adjustment of a slice bound (step 1): a negative bound counts
    from the end, and the outcome is clamped to [0, len]. *)
Definition adjust_index (i len : Z) : Z :=
  let i := if i <? 0 then i + len else i in
  if i <? 0 then 0 else if len <=? i then len else i.

(** [s[start:stop]]; an omitted bound is [None]. Slicing a [str] never
    raises, whatever the integers are. *)
Definition slice (s : string) (start stop : option Z) : string :=
  let len := Z.of_nat (String.length s) in
  let lo := match start with None => 0 | Some i => adjust_index i len end in
  let hi := match stop with None => len | Some j => adjust_index j len end in
  substring (Z.to_nat lo) (Z.to_nat (hi - lo)) s.

(** Truth value of an expression that is [None] or a [str]. *)
Definition truthy (v : option string) : bool :=
  match v with
  | None => false
  | Some s => negb (String.eqb s "")
  end.

(** The string held by a value known not to be [None]. *)
Definition str_of (v : option string) : string :=
  match v with
  | None => ""
  | Some s => s
  end.

Section Sorted.
Context {A : Type} (key : A -> Z).

(** Place [x] in an ascending list, ahead of the elements whose key is
    not smaller: [x] comes from further left in the input. *)
Fixpoint insert (x : A) (l : list A) : list A :=
  match l with
  | [] => [x]
  | y :: l' => if key x <=? key y then x :: y :: l' else y :: insert x l'
  end.

(** The stable ascending sort. *)
Fixpoint sort_stable (l : list A) : list A :=
  match l with
  | [] => []
  | x :: l' => insert x (sort_stable l')
  end.

(** [sorted(l, key=key, reverse=reverse)]. A reverse sort reverses the
    list, sorts it forward with the stable sort and reverses the
    outcome, which keeps elements of equal key in their input order. *)
Definition sorted (reverse : bool) (l : list A) : list A :=
  if reverse then rev (sort_stable (rev l)) else sort_stable l.
End Sorted.

End Py.

(** ** Data model (anonipy.definitions) *)

Module Entity.
Record t : Type := mk
  { text : string;
    label : string;
    start_index : Z;
    end_index : Z }.
End Entity.

Module Replacement.
Record t : Type := mk
  { original_text : string;
    label : string;
    start_index : Z;
    end_index : Z;
    anonymized_text : string }.

(** The record of an entity and the replacement text resolved for it. *)
Definition of_entity (entity : Entity.t) (s : string) : t :=
  mk (Entity.text entity) (Entity.label entity)
    (Entity.start_index entity) (Entity.end_index entity) s.

(** The entity a record was made from, read back from its fields. *)
Definition source (r : t) : Entity.t :=
  Entity.mk (original_text r) (label r) (start_index r) (end_index r).
End Replacement.

(** ** Outcomes of a call: a value, or a raised exception *)

Inductive Result (Exn A : Type) : Type :=
| Ok (a : A)
| Raise (e : Exn).
Arguments Ok {Exn A} a.
Arguments Raise {Exn A} e.

Definition is_ok {Exn A : Type} (r : Result Exn A) : bool :=
  match r with
  | Ok _ => true
  | Raise _ => false
  end.

(** ** The strategy *)

Section PseudonymizationStrategy.

(** [Exn] are the exceptions the generator may raise, [G] whatever state
    the generator keeps between calls (it need not be deterministic), and
    [mapping] is [self.mapping]: called on the current text and an entity,
    it returns a [str] or raises. *)
Variables Exn G : Type.
Variable mapping : string -> Entity.t -> G -> Result Exn string * G.

(** One invocation of the generator, as it is observed from outside. *)
Record Call : Type := mkCall
  { call_text : string;
    call_entity : Entity.t;
    call_result : Result Exn string }.

(** The world a call runs in: the generator's state and the log of the
    generator invocations made so far. *)
Record World : Type := mkWorld
  { gen : G;
    calls : list Call }.

Definition M (A : Type) : Type := World -> Result Exn A * World.

Definition ret {A : Type} (a : A) : M A := fun w => (Ok a, w).

Definition bind {A B : Type} (m : M A) (k : A -> M B) : M B :=
  fun w =>
    match m w with
    | (Ok a, w') => k a w'
    | (Raise e, w') => (Raise e, w')
    end.

Notation "x <- m ;; k" := (bind m (fun x => k))
  (at level 61, m at next level, right associativity).

(** [self.mapping(text, entity)] *)
Definition call_mapping (text : string) (entity : Entity.t) : M string :=
  fun w =>
    let (r, g) := mapping text entity (gen w) in
    (r, mkWorld g (calls w ++ [mkCall text entity r])).

Definition _check_replacement
    (entity : Entity.t) (replacements : list Replacement.t) : option string :=
  let existing_replacement :=
    filter (fun x => (Replacement.original_text x =? Entity.text entity)%string)
           replacements in
  match existing_replacement with
  | x :: _ => Some (Replacement.anonymized_text x)
  | [] => None
  end.

Definition _create_replacement
    (entity : Entity.t) (text : string) (replacements : list Replacement.t)
  : M Replacement.t :=
  let anonymized_text := _check_replacement entity replacements in
  anonymized_text <-
    (if negb (Py.truthy anonymized_text)
     then call_mapping text entity
     else ret (Py.str_of anonymized_text)) ;;
  ret (Replacement.mk (Entity.text entity) (Entity.label entity)
         (Entity.start_index entity) (Entity.end_index entity)
         anonymized_text).

(** The rebuilt text of one iteration of the loop. *)
Definition splice (text : string) (r : Replacement.t) : string :=
  (Py.slice text None (Some (Replacement.start_index r))
   ++ Replacement.anonymized_text r
   ++ Py.slice text (Some (Replacement.end_index r)) None)%string.

(** The [for ent in s_entities] loop, on the variables it updates. *)
Fixpoint anonymize_loop
    (s_entities : list Entity.t) (text : string)
    (replacements : list Replacement.t)
  : M (string * list Replacement.t) :=
  match s_entities with
  | [] => ret (text, replacements)
  | ent :: rest =>
      r <- _create_replacement ent text replacements ;;
      anonymize_loop rest (splice text r) (replacements ++ [r])
  end.

Definition anonymize (text : string) (entities : list Entity.t)
  : M (string * list Replacement.t) :=
  let s_entities := Py.sorted Entity.start_index true entities in
  out <- anonymize_loop s_entities text [] ;;
  ret (fst out, rev (snd out)).

End PseudonymizationStrategy.

Arguments mkCall {Exn} call_text call_entity call_result.
Arguments call_text {Exn} c.
Arguments call_entity {Exn} c.
Arguments call_result {Exn} c.
Arguments mkWorld {Exn G} gen calls.
Arguments gen {Exn G} w.
Arguments calls {Exn G} w.
Arguments ret {Exn G A} a w.
Arguments bind {Exn G A B} m k w.
Arguments call_mapping {Exn G} mapping text entity w.
Arguments _create_replacement {Exn G} mapping entity text replacements w.
Arguments anonymize_loop {Exn G} mapping s_entities text replacements w.
Arguments anonymize {Exn G} mapping text entities w.

(** ** The pipeline (anonipy/pipeline.py) *)

(** What [Pipeline.anonymize] uses of [str], [int] and [dict]. *)
Module PyStr.

(** [c.isspace()], for a character below U+0100: the characters that
    [str.strip()] removes. *)
Definition isspace (c : ascii) : bool :=
  let n := nat_of_ascii c in
  (((9 <=? n) && (n <=? 13)) || ((28 <=? n) && (n <=? 32))
   || (n =? 133) || (n =? 160))%nat.

Fixpoint lstrip (s : string) : string :=
  match s with
  | EmptyString => EmptyString
  | String c s' => if isspace c then lstrip s' else s
  end.

Fixpoint rstrip (s : string) : string :=
  match s with
  | EmptyString => EmptyString
  | String c s' =>
      match rstrip s' with
      | EmptyString => if isspace c then EmptyString else String c EmptyString
      | r => String c r
      end
  end.

(** [s.strip()] *)
Definition strip (s : string) : string := rstrip (lstrip s).

(** [not s], for a [str]. *)
Definition is_empty (s : string) : bool := (s =? "")%string.

(** [str(n)] and [f"{n}"], for an [int] that is not negative. *)
Definition of_nat (n : nat) : string :=
  DecimalString.NilEmpty.string_of_uint (Nat.to_uint n).

(** [s.split(sep)[-1]] for a separator of one character: what follows the
    last separator, the whole of [s] when it holds none. *)
Fixpoint split_last_from (sep : ascii) (acc s : string) : string :=
  match s with
  | EmptyString => acc
  | String c s' =>
      if Ascii.eqb c sep then split_last_from sep EmptyString s'
      else split_last_from sep (acc ++ String c EmptyString) s'
  end.

Definition split_last (sep : ascii) (s : string) : string :=
  split_last_from sep EmptyString s.

(** [d[k] = v] on a [dict] of strings, kept as its items in insertion
    order: a key already present keeps its place. *)
Fixpoint dict_set (k v : string) (d : list (string * string))
  : list (string * string) :=
  match d with
  | [] => [(k, v)]
  | (k', v') :: d' =>
      if (k' =? k)%string then (k, v) :: d' else (k', v') :: dict_set k v d'
  end.

End PyStr.

Module Pipeline.

(** What the pipeline is given and what it calls outside this file: the
    interpreter's [os], [os.path] and [json], the two functions of
    [anonipy.utils.file_system], and the extractor and the strategy the
    instance holds. [Sys] is the state of all that (the file system, the
    models behind the extractor, the generator of the strategy); a call
    that may raise returns a [Result] and the state it leaves. *)
Record Deps (Exn Sys : Type) : Type := mkDeps
  { (** [ValueError(msg)] and [str(e)] *)
    ValueError : string -> Exn;
    str : Exn -> string;
    (** [os.path.exists(path)] *)
    path_exists : string -> Sys -> bool;
    (** [os.makedirs(path, exist_ok=True)] *)
    makedirs : string -> Sys -> Result Exn unit * Sys;
    (** [os.path.abspath(path)] *)
    abspath : string -> Sys -> Result Exn string * Sys;
    (** [os.path.relpath(path, start)] *)
    relpath : string -> string -> Sys -> Result Exn string * Sys;
    (** [os.path.join(a, *p)], [os.path.splitext(p)], [os.path.dirname(p)]
        and [os.sep] *)
    join : string -> list string -> string;
    splitext : string -> string * string;
    dirname : string -> string;
    sep : ascii;
    (** [json.dumps(d, indent=4, sort_keys=True)] *)
    json_dumps : list (string * string) -> string;
    (** [open_file(file_path)], which answers [None] or the text, and
        [write_file(text, file_path)] *)
    open_file : string -> Sys -> Result Exn (option string) * Sys;
    write_file : string -> string -> Sys -> Result Exn unit * Sys;
    (** [self.extractor(text)]: of the pair it returns only the entities,
        which may be [None], are used *)
    extractor : string -> Sys -> Result Exn (option (list Entity.t)) * Sys;
    (** [self.strategy.anonymize(text, entities)] *)
    strategy :
      string -> list Entity.t -> Sys ->
      Result Exn (string * list Replacement.t) * Sys }.

Arguments ValueError {Exn Sys} d msg.
Arguments str {Exn Sys} d e.
Arguments path_exists {Exn Sys} d path s.
Arguments makedirs {Exn Sys} d path s.
Arguments abspath {Exn Sys} d path s.
Arguments relpath {Exn Sys} d path start s.
Arguments join {Exn Sys} d a p.
Arguments splitext {Exn Sys} d p.
Arguments dirname {Exn Sys} d p.
Arguments sep {Exn Sys} d.
Arguments json_dumps {Exn Sys} d items.
Arguments open_file {Exn Sys} d file_path s.
Arguments write_file {Exn Sys} d text file_path s.
Arguments extractor {Exn Sys} d text s.
Arguments strategy {Exn Sys} d text entities s.

(** The state a method of the pipeline runs in: the counter of the
    instance, the state of what it depends on, the lines printed so far
    and the calls of [write_file] made so far, as (text, path). *)
Record State (Sys : Type) : Type := mkState
  { anonymized_files_count : nat;
    env : Sys;
    printed : list string;
    written : list (string * string) }.

Arguments mkState {Sys} anonymized_files_count env printed written.
Arguments anonymized_files_count {Sys} s.
Arguments env {Sys} s.
Arguments printed {Sys} s.
Arguments written {Sys} s.

Section Methods.
Variables Exn Sys : Type.
Variable D : Deps Exn Sys.

Definition P (A : Type) : Type := State Sys -> Result Exn A * State Sys.

Definition ret {A : Type} (a : A) : P A := fun s => (Ok a, s).

Definition raise {A : Type} (e : Exn) : P A := fun s => (Raise e, s).

Definition bind {A B : Type} (m : P A) (k : A -> P B) : P B :=
  fun s =>
    match m s with
    | (Ok a, s') => k a s'
    | (Raise e, s') => (Raise e, s')
    end.

(** [try: body except Exception as e: handler(e)] *)
Definition try_except {A : Type} (body : P A) (handler : Exn -> P A) : P A :=
  fun s =>
    match body s with
    | (Ok a, s') => (Ok a, s')
    | (Raise e, s') => handler e s'
    end.

Notation "x <- m ;; k" := (bind m (fun x => k))
  (at level 61, m at next level, right associativity).
Notation "m ;;; k" := (bind m (fun _ => k))
  (at level 61, right associativity).

(** A call into what the pipeline depends on. *)
Definition call {A : Type} (f : Sys -> Result Exn A * Sys) : P A :=
  fun s =>
    let (r, e) := f (env s) in
    (r, mkState (anonymized_files_count s) e (printed s) (written s)).

Definition print (msg : string) : P unit :=
  fun s =>
    (Ok tt,
     mkState (anonymized_files_count s) (env s) (printed s ++ [msg])
       (written s)).

(** [write_file(text, file_path)], noted in [written] as it is called. *)
Definition call_write_file (text file_path : string) : P unit :=
  fun s =>
    call (write_file D text file_path)
      (mkState (anonymized_files_count s) (env s) (printed s)
         (written s ++ [(text, file_path)])).

(** [self.anonymized_files_count += 1], giving the new value. *)
Definition count_file : P nat :=
  fun s =>
    (Ok (S (anonymized_files_count s)),
     mkState (S (anonymized_files_count s)) (env s) (printed s) (written s)).

Definition _anonymize_file (file_path : string) : P string :=
  original_text <- call (open_file D file_path) ;;
  match original_text with
  | None =>
      print ("Skipping file " ++ file_path
             ++ ": Failed to read or file is empty.")%string ;;;
      ret ""%string
  | Some original_text =>
      entities <- call (extractor D original_text) ;;
      match entities with
      | None =>
          print ("Skipping file " ++ file_path
                 ++ ": Entity extraction returned None.")%string ;;;
          ret ""%string
      | Some entities =>
          out <- call (strategy D original_text entities) ;;
          ret (fst out)
      end
  end.

(** The [try] statement of the loop: the anonymized text, or [None] where
    the loop goes on to the next file. *)
Definition try_anonymize_file (file_path : string) : P (option string) :=
  try_except
    (anonymized_text <- _anonymize_file file_path ;;
     if PyStr.is_empty (PyStr.strip anonymized_text)
     then
       print ("Skipping file " ++ file_path
              ++ ": Anonymized text is empty.")%string ;;;
       ret None
     else ret (Some anonymized_text))
    (fun e =>
       print ("Error processing file " ++ file_path ++ ": " ++ str D e)%string ;;;
       ret None).

(** [f"{base_name}_anony{ext}"] with [base_name = f"file{count}"] *)
Definition output_file_name (count : nat) (ext : string) : string :=
  (("file" ++ PyStr.of_nat count) ++ "_anony" ++ ext)%string.

(** Where the anonymized file goes. *)
Definition output_file_path
    (output_dir : string) (flatten : bool)
    (relative_path output_file_name : string) : string :=
  if flatten then join D output_dir [output_file_name]
  else join D output_dir [dirname D relative_path; output_file_name].

(** The body of [for file_name in files], on the dictionary it fills. *)
Definition for_file
    (input_dir output_dir : string) (flatten : bool)
    (root file_name : string) (file_name_mapping : list (string * string))
  : P (list (string * string)) :=
  let file_path := join D root [file_name] in
  attempt <- try_anonymize_file file_path ;;
  match attempt with
  | None => ret file_name_mapping
  | Some anonymized_text =>
      let ext := snd (splitext D file_name) in
      count <- count_file ;;
      let output_file_name := output_file_name count ext in
      relative_path <- call (relpath D file_path input_dir) ;;
      let output_file_path :=
        output_file_path output_dir flatten relative_path output_file_name in
      (if flatten then ret tt
       else call (makedirs D (dirname D output_file_path))) ;;;
      call_write_file anonymized_text output_file_path ;;;
      let file_path_before :=
        join D (PyStr.split_last (sep D) input_dir) [relative_path] in
      file_path_after <- call (relpath D output_file_path output_dir) ;;
      ret (PyStr.dict_set file_path_before
             (join D (PyStr.split_last (sep D) output_dir) [file_path_after])
             file_name_mapping)
  end.

Fixpoint for_files
    (input_dir output_dir : string) (flatten : bool)
    (root : string) (files : list string)
    (file_name_mapping : list (string * string))
  : P (list (string * string)) :=
  match files with
  | [] => ret file_name_mapping
  | file_name :: rest =>
      file_name_mapping <-
        for_file input_dir output_dir flatten root file_name
          file_name_mapping ;;
      for_files input_dir output_dir flatten root rest file_name_mapping
  end.

(** [for root, _, files in os.walk(input_dir)]. [walked] are the pairs of
    [root] and [files] the walk yields in this run, in order: what it
    yields is decided while the run goes on and writes, so they are given
    rather than computed. *)
Fixpoint for_walk
    (input_dir output_dir : string) (flatten : bool)
    (walked : list (string * list string))
    (file_name_mapping : list (string * string))
  : P (list (string * string)) :=
  match walked with
  | [] => ret file_name_mapping
  | (root, files) :: rest =>
      file_name_mapping <-
        for_files input_dir output_dir flatten root files file_name_mapping ;;
      for_walk input_dir output_dir flatten rest file_name_mapping
  end.

Definition anonymize
    (input_dir output_dir : string) (flatten : bool)
    (walked : list (string * list string)) : P string :=
  fun s =>
  (if negb (path_exists D input_dir (env s))
   then
     raise (ValueError D ("Input directory '" ++ input_dir
                          ++ "' does not exist.")%string)
   else
     (fun s =>
        (if negb (path_exists D output_dir (env s))
         then call (makedirs D output_dir)
         else ret tt) s) ;;;
     a <- call (abspath D input_dir) ;;
     b <- call (abspath D output_dir) ;;
     if (a =? b)%string
     then raise (ValueError D
                   "Input and output directories cannot be the same.")
     else
       file_name_mapping <- for_walk input_dir output_dir flatten walked [] ;;
       ret (json_dumps D file_name_mapping)) s.

End Methods.

Arguments ret {Exn Sys A} a s.
Arguments raise {Exn Sys A} e s.
Arguments bind {Exn Sys A B} m k s.
Arguments try_except {Exn Sys A} body handler s.
Arguments call {Exn Sys A} f s.
Arguments print {Exn Sys} msg s.
Arguments call_write_file {Exn Sys} D text file_path s.
Arguments count_file {Exn Sys} s.
Arguments _anonymize_file {Exn Sys} D file_path s.
Arguments try_anonymize_file {Exn Sys} D file_path s.
Arguments output_file_path {Exn Sys} D output_dir flatten relative_path
  output_file_name.
Arguments for_file {Exn Sys} D input_dir output_dir flatten root file_name
  file_name_mapping s.
Arguments for_files {Exn Sys} D input_dir output_dir flatten root files
  file_name_mapping s.
Arguments for_walk {Exn Sys} D input_dir output_dir flatten walked
  file_name_mapping s.
Arguments anonymize {Exn Sys} D input_dir output_dir flatten walked s.

End Pipeline.

(** ** Concrete generators and inputs used to run the strategy *)

Module Examples.

(** A stateless generator that knows two names and raises on any other. *)
Definition name_mapping (text : string) (e : Entity.t) (g : unit)
  : Result string string * unit :=
  if (Entity.text e =? "Alice")%string then (Ok "PersonX", g)
  else if (Entity.text e =? "Bob")%string then (Ok "PersonY", g)
  else (Raise "KeyError", g).

(** A generator that answers with the label in brackets, and never fails. *)
Definition label_mapping (text : string) (e : Entity.t) (g : unit)
  : Result string string * unit :=
  (Ok ("[" ++ Entity.label e ++ "]")%string, g).

(** A generator that blanks the span starting at offset 2 and writes
    [Q] over any other. *)
Definition blank_mapping (text : string) (e : Entity.t) (g : unit)
  : Result string string * unit :=
  if Entity.start_index e =? 2 then (Ok ""%string, g) else (Ok "Q"%string, g).

Definition w0 : World string unit := mkWorld tt [].

Definition alice_doc : string := "Alice met Bob. Alice left.".

Definition alice_entities (l1 l2 l3 : string) : list Entity.t :=
  [Entity.mk "Alice" l1 0 5; Entity.mk "Bob" l2 10 13;
   Entity.mk "Alice" l3 15 20].

Definition a_left : Entity.t := Entity.mk "a" "X" 0 1.
Definition a_right : Entity.t := Entity.mk "a" "X" 2 3.

(** A span that ends before it starts, and starts past the end of a
    three-character document. *)
Definition backwards : Entity.t := Entity.mk "zz" "L" 7 2.

(** A span whose text is not what the document holds there, and which runs
    past the end of a three-character document. *)
Definition mismatched : Entity.t := Entity.mk "zz" "L" 1 5.

(** Two spans that start at the same offset. *)
Definition short_span : Entity.t := Entity.mk "a" "L" 0 1.
Definition long_span : Entity.t := Entity.mk "ab" "M" 0 2.

(** The records expected for the worked example. *)
Definition alice_records (l1 l2 l3 : string) : list Replacement.t :=
  [Replacement.mk "Alice" l1 0 5 "PersonX";
   Replacement.mk "Bob" l2 10 13 "PersonY";
   Replacement.mk "Alice" l3 15 20 "PersonX"].

(** The record of [a_right] under [blank_mapping], and the world after the
    generator was invoked for it. *)
Definition blank_record : Replacement.t := Replacement.mk "a" "X" 2 3 "".
Definition blank_world : World string unit :=
  mkWorld tt [mkCall "a a" a_right (Ok "")].

End Examples.

(** ** Vocabulary of the statements *)

(** A generator invocation that returned a string. *)
Definition call_ok {Exn : Type} (c : Call Exn) : Prop :=
  is_ok (call_result c) = true.

(** The generator invocations [new] made by a computation fit its outcome
    [r]: all of them returned when it returned, and when it raised [e] the
    last invocation raised [e] and those before it returned. *)
Definition trace_ok {Exn A : Type} (r : Result Exn A) (new : list (Call Exn))
  : Prop :=
  match r with
  | Ok _ => Forall call_ok new
  | Raise e =>
      exists pre c,
        new = pre ++ [c] /\ Forall call_ok pre /\ call_result c = Raise e
  end.

(** [original] is the non-empty span [s, e) of [document]. *)
Definition valid_span (document original : string) (s e : Z) : Prop :=
  0 <= s < e /\ e <= Z.of_nat (String.length document)
  /\ Py.slice document (Some s) (Some e) = original.

(** Records of one original text hold one replacement text. *)
Definition consistent (replacements : list Replacement.t) : Prop :=
  forall r1 r2,
    In r1 replacements -> In r2 replacements ->
    Replacement.original_text r1 = Replacement.original_text r2 ->
    Replacement.anonymized_text r1 = Replacement.anonymized_text r2.

(** What the loop keeps true of its accumulator when the generator has no
    empty answer: no record is empty, and the lookup for a record's text
    answers that record's replacement. *)
Definition settled (replacements : list Replacement.t) : Prop :=
  forall r, In r replacements ->
    Replacement.anonymized_text r <> ""%string
    /\ _check_replacement (Replacement.source r) replacements
       = Some (Replacement.anonymized_text r).

Definition valid_entity (document : string) (en : Entity.t) : Prop :=
  valid_span document (Entity.text en)
    (Entity.start_index en) (Entity.end_index en).

Definition valid_record (document : string) (r : Replacement.t) : Prop :=
  valid_span document (Replacement.original_text r)
    (Replacement.start_index r) (Replacement.end_index r).

(** ** Vocabulary for documents whose entities do not overlap *)

(** The document [text] from offset [pos] on, with the span of every record
    replaced by the record's [anonymized_text]; the records are in document
    order. *)
Fixpoint substitute (text : string) (pos : Z) (records : list Replacement.t)
  : string :=
  match records with
  | [] => Py.slice text (Some pos) None
  | r :: rest =>
      (Py.slice text (Some pos) (Some (Replacement.start_index r))
       ++ Replacement.anonymized_text r
       ++ substitute text (Replacement.end_index r) rest)%string
  end.

(** The spans of [l] follow one another from offset [pos] to offset [len]:
    each starts where the one before it ended, or later. *)
Fixpoint chain (pos : Z) (l : list Entity.t) (len : Z) : Prop :=
  match l with
  | [] => pos <= len
  | en :: rest =>
      pos <= Entity.start_index en
      /\ Entity.start_index en <= Entity.end_index en
      /\ chain (Entity.end_index en) rest len
  end.

(** A non-empty span inside the document. *)
Definition in_bounds (document : string) (en : Entity.t) : Prop :=
  0 <= Entity.start_index en < Entity.end_index en
  /\ Entity.end_index en <= Z.of_nat (String.length document).

(** No entity is listed twice and no two entities share a character. *)
Definition non_overlapping (entities : list Entity.t) : Prop :=
  NoDup entities
  /\ forall a b, In a entities -> In b entities -> a <> b ->
       Entity.end_index a <= Entity.start_index b
       \/ Entity.end_index b <= Entity.start_index a.

(** The text handed to the generator holds, at the offsets of the entity it
    is asked about, what [document] holds there. *)
Definition in_context {Exn : Type} (document : string) (c : Call Exn) : Prop :=
  Py.slice (call_text c)
    (Some (Entity.start_index (call_entity c)))
    (Some (Entity.end_index (call_entity c)))
  = Py.slice document
      (Some (Entity.start_index (call_entity c)))
      (Some (Entity.end_index (call_entity c))).

(** ** Vocabulary for the pipeline *)

(** The calls of [write_file] made for the files a run keeps, each given as
    its anonymized text, its path relative to the input directory and its
    extension, when the counter stood at [count] before the first. *)
Fixpoint numbered
    {Exn Sys : Type} (D : Pipeline.Deps Exn Sys)
    (output_dir : string) (flatten : bool) (count : nat)
    (kept : list (string * string * string)) : list (string * string) :=
  match kept with
  | [] => []
  | (text, relative_path, ext) :: rest =>
      (text,
       Pipeline.output_file_path D output_dir flatten relative_path
         (Pipeline.output_file_name (S count) ext))
      :: numbered D output_dir flatten (S count) rest
  end.

(** The extension [ext] is that of a file the walk yielded. *)
Definition walked_ext
    {Exn Sys : Type} (D : Pipeline.Deps Exn Sys)
    (walked : list (string * list string)) (ext : string) : Prop :=
  exists root files file_name,
    In (root, files) walked /\ In file_name files
    /\ ext = snd (Pipeline.splitext D file_name).

(** Two states with the same counter and the same written files. *)
Definition same_files {Sys : Type} (s s' : Pipeline.State Sys) : Prop :=
  Pipeline.anonymized_files_count s' = Pipeline.anonymized_files_count s
  /\ Pipeline.written s' = Pipeline.written s.

(** The files kept between two states of a run: the counter advanced by
    their number, and they were written, in order, under the names made
    from the successive counts; [ok] holds of their extensions. *)
Definition kept_between
    {Exn Sys : Type} (D : Pipeline.Deps Exn Sys)
    (output_dir : string) (flatten : bool) (ok : string -> Prop)
    (s s' : Pipeline.State Sys) : Prop :=
  exists kept : list (string * string * string),
    Pipeline.anonymized_files_count s'
    = (Pipeline.anonymized_files_count s + List.length kept)%nat
    /\ Pipeline.written s'
       = Pipeline.written s
         ++ numbered D output_dir flatten
              (Pipeline.anonymized_files_count s) kept
    /\ Forall (fun k => ok (snd k)) kept.

(** ** A small environment to run the pipeline in *)

Module PipelineExamples.

(** One readable file with three entities, and nothing else; paths are
    joined with a slash, every file has the extension [.txt], and the
    strategy is the pseudonymization strategy with [name_mapping]. *)
Definition deps : Pipeline.Deps string (World string unit) :=
  {| Pipeline.ValueError := fun msg => ("ValueError: " ++ msg)%string;
     Pipeline.str := fun e => e;
     Pipeline.path_exists := fun path _ => (path =? "in")%string;
     Pipeline.makedirs := fun _ w => (Ok tt, w);
     Pipeline.abspath := fun path w => (Ok ("/" ++ path)%string, w);
     Pipeline.relpath :=
       fun path _ w => (Ok (PyStr.split_last "/" path), w);
     Pipeline.join :=
       fun a p => fold_left (fun x y => (x ++ "/" ++ y)%string) p a;
     Pipeline.splitext := fun p => (p, ".txt"%string);
     Pipeline.dirname := fun _ => ""%string;
     Pipeline.sep := "/"%char;
     Pipeline.json_dumps :=
       fun items =>
         String.concat ","
           (map (fun kv => (fst kv ++ ":" ++ snd kv)%string) items);
     Pipeline.open_file :=
       fun file_path w =>
         (Ok (if (file_path =? "in/a.txt")%string
              then Some Examples.alice_doc else None), w);
     Pipeline.write_file := fun _ _ w => (Ok tt, w);
     Pipeline.extractor :=
       fun _ w => (Ok (Some (Examples.alice_entities "P" "P" "P")), w);
     Pipeline.strategy := anonymize Examples.name_mapping |}.

Definition s0 : Pipeline.State (World string unit) :=
  Pipeline.mkState 0 Examples.w0 [] [].

Definition walked : list (string * list string) :=
  [("in"%string, ["a.txt"%string; "b.txt"%string])].

End PipelineExamples.

(** * Properties *)

(** ** The sort *)

Section SortedFacts.
Context {A : Type} (key : A -> Z).

Abbreviation asc := (fun a b : A => key a <= key b).
Abbreviation desc := (fun a b : A => key b <= key a).

Lemma insert_perm (x : A) (l : list A) :
  Permutation (Py.insert key x l) (x :: l).
Proof.
  induction l as [|y l IH]; simpl; [reflexivity|].
  destruct (key x <=? key y); [reflexivity|].
  rewrite IH. apply perm_swap.
Qed.

Lemma sort_stable_perm (l : list A) :
  Permutation (Py.sort_stable key l) l.
Proof.
  induction l as [|x l IH]; simpl; [constructor|].
  rewrite insert_perm. now constructor.
Qed.

Lemma insert_asc (x : A) (l : list A) :
  StronglySorted asc l -> StronglySorted asc (Py.insert key x l).
Proof.
  induction 1 as [|y l Hl IH Hy]; simpl.
  - repeat constructor.
  - destruct (Z.leb_spec (key x) (key y)) as [Hxy|Hxy].
    + constructor; [now constructor|].
      constructor; [exact Hxy|].
      eapply Forall_impl; [|exact Hy].
      intros z Hz. cbn beta in *. lia.
    + constructor; [exact IH|].
      eapply Permutation_Forall; [symmetry; apply insert_perm|].
      constructor; [cbn beta; lia | exact Hy].
Qed.

Lemma sort_stable_asc (l : list A) :
  StronglySorted asc (Py.sort_stable key l).
Proof.
  induction l as [|x l IH]; simpl; [constructor | now apply insert_asc].
Qed.

(** Elements of one key keep their relative order. *)
Lemma insert_filter (k : Z) (x : A) (l : list A) :
  filter (fun a => key a =? k) (Py.insert key x l)
  = filter (fun a => key a =? k) (x :: l).
Proof.
  induction l as [|y l IH]; [reflexivity|].
  cbn [Py.insert].
  destruct (Z.leb_spec (key x) (key y)) as [Hxy|Hxy]; [reflexivity|].
  cbn [filter] in *. rewrite IH.
  destruct (Z.eqb_spec (key x) k), (Z.eqb_spec (key y) k);
    try reflexivity; lia.
Qed.

Lemma sort_stable_filter (k : Z) (l : list A) :
  filter (fun a => key a =? k) (Py.sort_stable key l)
  = filter (fun a => key a =? k) l.
Proof.
  induction l as [|x l IH]; [reflexivity|].
  cbn [Py.sort_stable]. rewrite insert_filter.
  cbn [filter]. now rewrite IH.
Qed.

Lemma filter_rev_comm (f : A -> bool) (l : list A) :
  filter f (rev l) = rev (filter f l).
Proof.
  induction l as [|x l IH]; [reflexivity|].
  cbn [rev filter]. rewrite filter_app, IH. cbn [filter].
  destruct (f x); [reflexivity | now rewrite app_nil_r].
Qed.

Lemma StronglySorted_snoc (R : A -> A -> Prop) (l : list A) (x : A) :
  StronglySorted R l -> Forall (fun a => R a x) l ->
  StronglySorted R (l ++ [x]).
Proof.
  induction 1 as [|y l Hl IH Hy]; intros Hx; simpl.
  - repeat constructor.
  - inversion Hx; subst. constructor; [now apply IH|].
    apply Forall_app. split; [exact Hy | now repeat constructor].
Qed.

Lemma StronglySorted_rev (R : A -> A -> Prop) (l : list A) :
  StronglySorted R l -> StronglySorted (fun a b => R b a) (rev l).
Proof.
  induction 1 as [|y l Hl IH Hy]; simpl; [constructor|].
  apply StronglySorted_snoc; [exact IH|].
  apply Forall_rev. exact Hy.
Qed.

Lemma sorted_reverse_perm (l : list A) :
  Permutation (Py.sorted key true l) l.
Proof.
  unfold Py.sorted.
  rewrite <- Permutation_rev, sort_stable_perm, <- Permutation_rev.
  reflexivity.
Qed.

Lemma sorted_reverse_desc (l : list A) :
  StronglySorted desc (Py.sorted key true l).
Proof.
  unfold Py.sorted.
  apply (StronglySorted_rev asc). apply sort_stable_asc.
Qed.

Lemma sorted_reverse_stable (k : Z) (l : list A) :
  filter (fun a => key a =? k) (Py.sorted key true l)
  = filter (fun a => key a =? k) l.
Proof.
  unfold Py.sorted.
  rewrite filter_rev_comm, sort_stable_filter, filter_rev_comm.
  apply rev_involutive.
Qed.

End SortedFacts.

(** ** Slices *)

Lemma adjust_index_zero (len : Z) : 0 <= len -> Py.adjust_index 0 len = 0.
Proof.
  intros Hlen. unfold Py.adjust_index. cbn.
  destruct (Z.leb_spec len 0); lia.
Qed.

(** [s[0:i]] and [s[:i]] are the same slice. *)
Lemma slice_from_start (s : string) (i : Z) :
  Py.slice s (Some 0) (Some i) = Py.slice s None (Some i).
Proof.
  unfold Py.slice. now rewrite adjust_index_zero by lia.
Qed.

(** ** One call of [_create_replacement] and the loop around it *)

Section StrategyFacts.
Context {Exn G : Type}.
Variable mapping : string -> Entity.t -> G -> Result Exn string * G.

Abbreviation W := (World Exn G).

(** A replacement that is found and is not empty is reused, and the world
    is left as it was. *)
Lemma create_replacement_reuse
    (entity : Entity.t) (text : string) (replacements : list Replacement.t)
    (w : W) :
  Py.truthy (_check_replacement entity replacements) = true ->
  _create_replacement mapping entity text replacements w
  = (Ok (Replacement.of_entity entity (Py.str_of (_check_replacement entity replacements))),
     w).
Proof.
  intros Ht. unfold _create_replacement, bind. rewrite Ht. reflexivity.
Qed.

(** Otherwise the generator is invoked, once, on the current text. *)
Lemma create_replacement_generate
    (entity : Entity.t) (text : string) (replacements : list Replacement.t)
    (w : W) :
  Py.truthy (_check_replacement entity replacements) = false ->
  _create_replacement mapping entity text replacements w
  = (match fst (mapping text entity (gen w)) with
     | Ok s => Ok (Replacement.of_entity entity s)
     | Raise e => Raise e
     end,
     mkWorld (snd (mapping text entity (gen w)))
       (calls w ++ [mkCall text entity (fst (mapping text entity (gen w)))])).
Proof.
  intros Ht. unfold _create_replacement, bind, call_mapping. rewrite Ht.
  cbn [negb]. destruct (mapping text entity (gen w)) as [[s|e] g];
    reflexivity.
Qed.

(** The four fields copied from the entity. *)
Lemma create_replacement_source
    (entity : Entity.t) (text : string) (replacements : list Replacement.t)
    (w w' : W) (r : Replacement.t) :
  _create_replacement mapping entity text replacements w = (Ok r, w') ->
  Replacement.source r = entity.
Proof.
  destruct (Py.truthy (_check_replacement entity replacements)) eqn:Ht.
  - rewrite create_replacement_reuse by exact Ht.
    intros [= <- _]. now destruct entity.
  - rewrite create_replacement_generate by exact Ht.
    destruct (fst (mapping text entity (gen w))); intros [= <- _].
    now destruct entity.
Qed.

Lemma anonymize_loop_app
    (l1 l2 : list Entity.t) (text : string)
    (replacements : list Replacement.t) (w : W) :
  anonymize_loop mapping (l1 ++ l2) text replacements w
  = match anonymize_loop mapping l1 text replacements w with
    | (Ok out, w') => anonymize_loop mapping l2 (fst out) (snd out) w'
    | (Raise e, w') => (Raise e, w')
    end.
Proof.
  revert text replacements w.
  induction l1 as [|ent l1 IH]; intros text replacements w; [reflexivity|].
  cbn [app anonymize_loop]. unfold bind.
  destruct (_create_replacement mapping ent text replacements w)
    as [[r|e] w1]; [apply IH | reflexivity].
Qed.

(** The loop only appends to the accumulator, one record per entity and in
    the order of the entities. *)
Lemma anonymize_loop_records
    (l : list Entity.t) (text : string) (replacements : list Replacement.t)
    (w w' : W) (text' : string) (replacements' : list Replacement.t) :
  anonymize_loop mapping l text replacements w
  = (Ok (text', replacements'), w') ->
  exists new, replacements' = replacements ++ new
              /\ map Replacement.source new = l.
Proof.
  revert text replacements w.
  induction l as [|ent l IH]; intros text replacements w; cbn [anonymize_loop].
  - intros [= _ <- _]. exists []. now rewrite app_nil_r.
  - unfold bind.
    destruct (_create_replacement mapping ent text replacements w)
      as [[r|e] w1] eqn:Hr; [|discriminate].
    intros Hloop. apply IH in Hloop. destruct Hloop as (new & -> & Hnew).
    exists (r :: new). split.
    + now rewrite <- app_assoc.
    + cbn [map]. f_equal; [|exact Hnew].
      eapply create_replacement_source, Hr.
Qed.

Lemma anonymize_ok_inv
    (text : string) (entities : list Entity.t) (w w' : W)
    (text' : string) (records : list Replacement.t) :
  anonymize mapping text entities w = (Ok (text', records), w') ->
  anonymize_loop mapping (Py.sorted Entity.start_index true entities) text [] w
  = (Ok (text', rev records), w').
Proof.
  unfold anonymize, bind.
  destruct (anonymize_loop mapping _ text [] w) as [[[t rs]|e] w1];
    [|discriminate].
  cbn [ret fst snd]. intros [= <- <- <-]. now rewrite rev_involutive.
Qed.

(** The records, read back to front, are the entities in processing order. *)
Lemma anonymize_records
    (text : string) (entities : list Entity.t) (w w' : W)
    (text' : string) (records : list Replacement.t) :
  anonymize mapping text entities w = (Ok (text', records), w') ->
  map Replacement.source (rev records)
  = Py.sorted Entity.start_index true entities.
Proof.
  intros H. apply anonymize_ok_inv, anonymize_loop_records in H.
  destruct H as (new & Hnew & Hsrc). cbn [app] in Hnew. now subst new.
Qed.

End StrategyFacts.

(** ** Order of processing, splicing and the simplest runs *)

Section Processing.
Context {Exn G : Type}.
Variable mapping : string -> Entity.t -> G -> Result Exn string * G.

Abbreviation W := (World Exn G).

(** C5. [anonymize] runs its loop over a list [s_entities] that holds the
    supplied entities in descending order of [start_index], entities of one
    [start_index] staying in the order the caller supplied them; the
    records of a completed call, read in the order they were appended, are
    made from exactly that list. *)
Theorem anonymize_processing_order
    (text : string) (entities : list Entity.t) (w : W) :
  exists s_entities : list Entity.t,
    anonymize mapping text entities w
    = bind (anonymize_loop mapping s_entities text [])
           (fun out => ret (fst out, rev (snd out))) w
    /\ Permutation s_entities entities
    /\ StronglySorted
         (fun a b => Entity.start_index b <= Entity.start_index a) s_entities
    /\ (forall k : Z,
           filter (fun a => Entity.start_index a =? k) s_entities
           = filter (fun a => Entity.start_index a =? k) entities)
    /\ (forall text' records w',
           anonymize mapping text entities w = (Ok (text', records), w') ->
           map Replacement.source (rev records) = s_entities).
Proof.
  exists (Py.sorted Entity.start_index true entities).
  split; [reflexivity|].
  split; [apply sorted_reverse_perm|].
  split; [apply sorted_reverse_desc|].
  split; [intros k; apply sorted_reverse_stable|].
  intros text' records w' H. eapply anonymize_records, H.
Qed.

(** C6. One iteration of the loop, for the entity [ent] whose replacement
    [r] was created: the loop goes on with the text
    [text[0:start_index] + anonymized_text + text[end_index:]] and with [r]
    appended; [r] carries the entity's own text, label and offsets, and its
    [anonymized_text] is the reused one when a non-empty one was found
    (no generator call), the generator's answer on the current text
    otherwise. *)
Theorem anonymize_loop_splice_step
    (ent : Entity.t) (rest : list Entity.t) (text : string)
    (replacements : list Replacement.t) (w w' : W) (r : Replacement.t) :
  _create_replacement mapping ent text replacements w = (Ok r, w') ->
  anonymize_loop mapping (ent :: rest) text replacements w
  = anonymize_loop mapping rest
      (Py.slice text (Some 0) (Some (Entity.start_index ent))
       ++ Replacement.anonymized_text r
       ++ Py.slice text (Some (Entity.end_index ent)) None)%string
      (replacements ++ [r]) w'
  /\ Replacement.original_text r = Entity.text ent
  /\ Replacement.label r = Entity.label ent
  /\ Replacement.start_index r = Entity.start_index ent
  /\ Replacement.end_index r = Entity.end_index ent
  /\ (Py.truthy (_check_replacement ent replacements) = true ->
      _check_replacement ent replacements
      = Some (Replacement.anonymized_text r)
      /\ w' = w)
  /\ (Py.truthy (_check_replacement ent replacements) = false ->
      mapping text ent (gen w) = (Ok (Replacement.anonymized_text r), gen w')
      /\ calls w'
         = calls w ++ [mkCall text ent (Ok (Replacement.anonymized_text r))]).
Proof.
  intros Hr.
  pose proof (create_replacement_source _ _ _ _ _ _ _ Hr) as Hsrc.
  assert (Hfields :
    Replacement.original_text r = Entity.text ent
    /\ Replacement.label r = Entity.label ent
    /\ Replacement.start_index r = Entity.start_index ent
    /\ Replacement.end_index r = Entity.end_index ent)
    by (rewrite <- Hsrc; repeat split).
  destruct Hfields as (Ho & Hl & Hs & He).
  split.
  - cbn [anonymize_loop]. unfold bind. rewrite Hr.
    unfold splice. now rewrite slice_from_start, Hs, He.
  - repeat (split; [assumption|]). split; intros Ht.
    + rewrite create_replacement_reuse in Hr by exact Ht.
      injection Hr as <- <-. split; [|reflexivity].
      cbn. destruct (_check_replacement ent replacements);
        [reflexivity | discriminate].
    + rewrite create_replacement_generate in Hr by exact Ht.
      destruct (mapping text ent (gen w)) as [[s|e] g]; cbn [fst snd] in Hr;
        [|discriminate].
      injection Hr as <- <-. split; reflexivity.
Qed.

(** C8. With no entity, any text comes back unchanged with an empty list of
    records, and the generator is left alone. *)
Theorem anonymize_no_entities (text : string) (w : W) :
  anonymize mapping text [] w = (Ok (text, []), w)
  /\ anonymize mapping "" [] w = (Ok ("", []), w).
Proof.
  split; reflexivity.
Qed.

End Processing.

(** C6, on the entity Bob of the worked example. *)
Lemma anonymize_loop_splice_step_witness :
  anonymize_loop Examples.name_mapping
    [Entity.mk "Bob" "PERSON" 10 13] "Alice met Bob. Alice left." []
    Examples.w0
  = anonymize_loop Examples.name_mapping []
      "Alice met PersonY. Alice left."
      [Replacement.mk "Bob" "PERSON" 10 13 "PersonY"]
      (mkWorld tt
         [mkCall "Alice met Bob. Alice left."
            (Entity.mk "Bob" "PERSON" 10 13) (Ok "PersonY")]).
Proof.
  apply (anonymize_loop_splice_step Examples.name_mapping
           (Entity.mk "Bob" "PERSON" 10 13) []
           "Alice met Bob. Alice left." [] Examples.w0
           (mkWorld tt
              [mkCall "Alice met Bob. Alice left."
                 (Entity.mk "Bob" "PERSON" 10 13) (Ok "PersonY")])
           (Replacement.mk "Bob" "PERSON" 10 13 "PersonY")).
  reflexivity.
Defined.

(** C7. The worked example of the specification, whatever the labels of the
    three entities: the rewritten text, and the three records in document
    order, both records of Alice holding PersonX. *)
Theorem anonymize_alice_bob (l1 l2 l3 : string) :
  fst (anonymize Examples.name_mapping Examples.alice_doc
         (Examples.alice_entities l1 l2 l3) Examples.w0)
  = Ok ("PersonX met PersonY. PersonX left.",
        [Replacement.mk "Alice" l1 0 5 "PersonX";
         Replacement.mk "Bob" l2 10 13 "PersonY";
         Replacement.mk "Alice" l3 15 20 "PersonX"]).
Proof.
  reflexivity.
Qed.

(** ** Generator failures *)

Section Failures.
Context {Exn G : Type}.
Variable mapping : string -> Entity.t -> G -> Result Exn string * G.

Abbreviation W := (World Exn G).

Lemma trace_ok_prepend {A : Type}
    (r : Result Exn A) (new1 new2 : list (Call Exn)) :
  Forall call_ok new1 -> trace_ok r new2 -> trace_ok r (new1 ++ new2).
Proof.
  intros H1. destruct r as [a|e]; cbn [trace_ok].
  - intros H2. apply Forall_app. now split.
  - intros (pre & c & -> & Hpre & Hc).
    exists (new1 ++ pre), c. rewrite app_assoc.
    repeat split; [|exact Hc]. apply Forall_app. now split.
Qed.

Lemma create_replacement_trace
    (entity : Entity.t) (text : string) (replacements : list Replacement.t)
    (w : W) :
  exists new,
    calls (snd (_create_replacement mapping entity text replacements w))
    = calls w ++ new
    /\ trace_ok (fst (_create_replacement mapping entity text replacements w))
                new.
Proof.
  destruct (Py.truthy (_check_replacement entity replacements)) eqn:Ht.
  - rewrite create_replacement_reuse by exact Ht. exists [].
    cbn [fst snd trace_ok]. split; [now rewrite app_nil_r | constructor].
  - rewrite create_replacement_generate by exact Ht. cbn [fst snd calls].
    eexists. split; [reflexivity|].
    destruct (fst (mapping text entity (gen w))) as [s|e] eqn:Hm;
      cbn [trace_ok].
    + repeat constructor.
    + exists [], (mkCall text entity (Raise e)). repeat split. constructor.
Qed.

Lemma anonymize_loop_trace
    (l : list Entity.t) (text : string) (replacements : list Replacement.t)
    (w : W) :
  exists new,
    calls (snd (anonymize_loop mapping l text replacements w)) = calls w ++ new
    /\ trace_ok (fst (anonymize_loop mapping l text replacements w)) new.
Proof.
  revert text replacements w.
  induction l as [|ent l IH]; intros text replacements w; cbn [anonymize_loop].
  - exists []. cbn. split; [now rewrite app_nil_r | constructor].
  - unfold bind.
    destruct (create_replacement_trace ent text replacements w)
      as (new1 & Hc1 & Ht1).
    destruct (_create_replacement mapping ent text replacements w)
      as [[r|e] w1]; cbn [fst snd] in *.
    + destruct (IH (splice text r) (replacements ++ [r]) w1)
        as (new2 & Hc2 & Ht2).
      exists (new1 ++ new2). split.
      * now rewrite Hc2, Hc1, app_assoc.
      * now apply trace_ok_prepend.
    + now exists new1.
Qed.

Lemma anonymize_trace (text : string) (entities : list Entity.t) (w : W) :
  exists new,
    calls (snd (anonymize mapping text entities w)) = calls w ++ new
    /\ trace_ok (fst (anonymize mapping text entities w)) new.
Proof.
  unfold anonymize, bind.
  destruct (anonymize_loop_trace
              (Py.sorted Entity.start_index true entities) text [] w)
    as (new & Hc & Ht).
  exists new.
  destruct (anonymize_loop mapping _ text [] w) as [[out|e] w1];
    cbn [fst snd ret] in *; now split.
Qed.

(** A failed invocation in a trace that fits outcome [r] is the last one,
    and [r] is its exception. *)
Lemma trace_ok_failure {A : Type}
    (r : Result Exn A) (pre post : list (Call Exn)) (c : Call Exn) (e : Exn) :
  trace_ok r (pre ++ c :: post) -> call_result c = Raise e ->
  post = [] /\ r = Raise e.
Proof.
  intros Ht Hc.
  assert (Hbad : ~ call_ok c) by (unfold call_ok; now rewrite Hc).
  destruct r as [a|e']; cbn [trace_ok] in Ht.
  - apply Forall_app in Ht. destruct Ht as [_ Ht]. now inversion Ht.
  - destruct Ht as (pre' & c' & Heq & Hpre' & Hc').
    destruct post as [|d post] using rev_ind.
    + apply app_inj_tail in Heq. destruct Heq as [_ ->].
      split; [reflexivity|]. congruence.
    + exfalso. clear IHpost.
      rewrite app_comm_cons, app_assoc in Heq.
      apply app_inj_tail in Heq. destruct Heq as [<- _].
      apply Forall_app in Hpre'. destruct Hpre' as [_ Hpre'].
      now inversion Hpre'.
Qed.

(** C9. Whatever the run, the generator invocations it makes are appended
    to the log, and if one of them raises [e] it is the last invocation of
    the call (nothing is retried, no later entity is processed) and the
    call itself ends raising [e]: no text and no record is returned. *)
Theorem anonymize_generator_failure_propagates
    (text : string) (entities : list Entity.t) (w : W) :
  exists new,
    calls (snd (anonymize mapping text entities w)) = calls w ++ new
    /\ forall pre c post e,
         new = pre ++ c :: post -> call_result c = Raise e ->
         post = [] /\ fst (anonymize mapping text entities w) = Raise e.
Proof.
  destruct (anonymize_trace text entities w) as (new & Hc & Ht).
  exists new. split; [exact Hc|].
  intros pre c post e -> Hfail. eapply trace_ok_failure; eassumption.
Qed.

(** A generator that always returns makes every loop return, with one more
    record per entity. *)
Lemma anonymize_loop_total
    (l : list Entity.t) (text : string) (replacements : list Replacement.t)
    (w : W) :
  (forall t e g, is_ok (fst (mapping t e g)) = true) ->
  exists text' replacements' w',
    anonymize_loop mapping l text replacements w
    = (Ok (text', replacements'), w')
    /\ List.length replacements' = (List.length replacements + List.length l)%nat.
Proof.
  intros Htotal. revert text replacements w.
  induction l as [|ent l IH]; intros text replacements w; cbn [anonymize_loop].
  - exists text, replacements, w. split; [reflexivity | cbn; lia].
  - unfold bind.
    assert (Hr : exists r w1,
      _create_replacement mapping ent text replacements w = (Ok r, w1)).
    { destruct (Py.truthy (_check_replacement ent replacements)) eqn:Ht.
      - rewrite create_replacement_reuse by exact Ht. eauto.
      - rewrite create_replacement_generate by exact Ht.
        specialize (Htotal text ent (gen w)).
        destruct (fst (mapping text ent (gen w))); [eauto | discriminate]. }
    destruct Hr as (r & w1 & ->).
    destruct (IH (splice text r) (replacements ++ [r]) w1)
      as (text' & replacements' & w' & -> & Hlen).
    exists text', replacements', w'. split; [reflexivity|].
    rewrite Hlen, length_app. cbn [List.length]. lia.
Qed.

(** C2, amended. No entity is rejected for its offsets: when the generator
    returns for every entity, [anonymize] returns a text and one record per
    entity, whatever the offsets of the entities are. *)
Theorem anonymize_accepts_any_offsets
    (text : string) (entities : list Entity.t) (w : W) :
  (forall t e g, is_ok (fst (mapping t e g)) = true) ->
  exists text' records w',
    anonymize mapping text entities w = (Ok (text', records), w')
    /\ List.length records = List.length entities.
Proof.
  intros Htotal. unfold anonymize, bind.
  destruct (anonymize_loop_total
              (Py.sorted Entity.start_index true entities) text [] w Htotal)
    as (text' & replacements' & w' & -> & Hlen).
  exists text', (rev replacements'), w'. split; [reflexivity|].
  rewrite length_rev, Hlen. cbn [List.length plus].
  apply Permutation_length, sorted_reverse_perm.
Qed.

End Failures.

(** ** The audit trail *)

Lemma StronglySorted_map_key {A : Type} (key : A -> Z) (l : list A) :
  StronglySorted (fun a b => key a <= key b) l ->
  StronglySorted Z.le (map key l).
Proof.
  induction 1 as [|x l Hl IH Hx]; cbn [map]; constructor;
    [exact IH | now apply Forall_map].
Qed.

Lemma StronglySorted_le_NoDup_lt (l : list Z) :
  StronglySorted Z.le l -> NoDup l -> StronglySorted Z.lt l.
Proof.
  induction 1 as [|x l Hl IH Hx]; intros Hnd; constructor;
    inversion Hnd as [|? ? Hnotin Hnd']; subst.
  - now apply IH.
  - rewrite Forall_forall in *. intros y Hy.
    specialize (Hx y Hy).
    assert (x <> y) by (intros ->; contradiction).
    lia.
Qed.

Section AuditTrail.
Context {Exn G : Type}.
Variable mapping : string -> Entity.t -> G -> Result Exn string * G.

Abbreviation W := (World Exn G).

(** The records come back as the stable ascending sort leaves the reversed
    input. *)
Lemma anonymize_records_ascending
    (text : string) (entities : list Entity.t) (w w' : W)
    (text' : string) (records : list Replacement.t) :
  anonymize mapping text entities w = (Ok (text', records), w') ->
  map Replacement.source records
  = Py.sort_stable Entity.start_index (rev entities).
Proof.
  intros H. apply anonymize_records in H.
  unfold Py.sorted in H. rewrite map_rev in H.
  apply (f_equal (@rev _)) in H. now rewrite !rev_involutive in H.
Qed.

Lemma map_start_index_source (records : list Replacement.t) :
  map Replacement.start_index records
  = map Entity.start_index (map Replacement.source records).
Proof.
  now rewrite map_map.
Qed.

(** C3, amended. The records of a completed call are in ascending order of
    [start_index], equal offsets allowed; the order is strict when no two
    supplied entities start at the same offset. *)
Theorem anonymize_records_sorted
    (text : string) (entities : list Entity.t) (w w' : W)
    (text' : string) (records : list Replacement.t) :
  anonymize mapping text entities w = (Ok (text', records), w') ->
  StronglySorted Z.le (map Replacement.start_index records)
  /\ (NoDup (map Entity.start_index entities) ->
      StronglySorted Z.lt (map Replacement.start_index records)).
Proof.
  intros H. apply anonymize_records_ascending in H.
  assert (Hle : StronglySorted Z.le (map Replacement.start_index records)).
  { rewrite map_start_index_source, H.
    apply StronglySorted_map_key, sort_stable_asc. }
  split; [exact Hle|].
  intros Hnd. apply StronglySorted_le_NoDup_lt; [exact Hle|].
  rewrite map_start_index_source, H.
  eapply Permutation_NoDup; [|exact Hnd].
  apply Permutation_map. rewrite sort_stable_perm.
  apply Permutation_rev.
Qed.

(** C4, amended. The records of a completed call are the supplied entities,
    one record per entity, with text, label and offsets copied as they
    were given; they denote valid spans of the original document when the
    supplied entities do, and nothing else in the call makes them so. *)
Theorem anonymize_records_copy_entities
    (text : string) (entities : list Entity.t) (w w' : W)
    (text' : string) (records : list Replacement.t) :
  anonymize mapping text entities w = (Ok (text', records), w') ->
  Permutation (map Replacement.source records) entities
  /\ (Forall (valid_entity text) entities ->
      Forall (valid_record text) records).
Proof.
  intros H. apply anonymize_records_ascending in H.
  assert (Hperm : Permutation (map Replacement.source records) entities).
  { rewrite H, sort_stable_perm. symmetry. apply Permutation_rev. }
  split; [exact Hperm|].
  intros Hvalid.
  apply (Permutation_Forall (Permutation_sym Hperm)) in Hvalid.
  rewrite Forall_map in Hvalid. exact Hvalid.
Qed.

End AuditTrail.

(** ** Reuse of replacements *)

Lemma check_replacement_text
    (a b : Entity.t) (replacements : list Replacement.t) :
  Entity.text b = Entity.text a ->
  _check_replacement b replacements = _check_replacement a replacements.
Proof.
  intros Heq. unfold _check_replacement. now rewrite Heq.
Qed.

Lemma check_replacement_app
    (entity : Entity.t) (l1 l2 : list Replacement.t) :
  _check_replacement entity (l1 ++ l2)
  = match _check_replacement entity l1 with
    | Some s => Some s
    | None => _check_replacement entity l2
    end.
Proof.
  unfold _check_replacement. rewrite filter_app.
  now destruct (filter _ l1).
Qed.

Lemma check_replacement_head
    (entity : Entity.t) (r : Replacement.t) (l : list Replacement.t) :
  Replacement.original_text r = Entity.text entity ->
  _check_replacement entity (r :: l) = Some (Replacement.anonymized_text r).
Proof.
  intros Heq. unfold _check_replacement. cbn [filter].
  now rewrite Heq, String.eqb_refl.
Qed.

Lemma truthy_false_inv (v : option string) :
  Py.truthy v = false -> v = None \/ v = Some ""%string.
Proof.
  destruct v as [s|]; [|now left]. cbn.
  destruct (String.eqb_spec s ""); [subst; now right | discriminate].
Qed.

Section Reuse.
Context {Exn G : Type}.
Variable mapping : string -> Entity.t -> G -> Result Exn string * G.

Abbreviation W := (World Exn G).

(** Once an entity was given the empty replacement, the lookup for its
    text answers the empty string for the rest of the loop. *)
Lemma check_replacement_after_empty
    (a : Entity.t) (text : string) (replacements more : list Replacement.t)
    (w w' : W) (r : Replacement.t) :
  _create_replacement mapping a text replacements w = (Ok r, w') ->
  Replacement.anonymized_text r = ""%string ->
  _check_replacement a (replacements ++ r :: more) = Some ""%string.
Proof.
  intros Hr Hempty.
  pose proof (create_replacement_source _ _ _ _ _ _ _ Hr) as Hsrc.
  assert (Ho : Replacement.original_text r = Entity.text a)
    by now rewrite <- Hsrc.
  rewrite check_replacement_app.
  destruct (Py.truthy (_check_replacement a replacements)) eqn:Ht.
  - rewrite create_replacement_reuse in Hr by exact Ht.
    injection Hr as <- _. cbn in Hempty.
    destruct (_check_replacement a replacements) as [s|]; [|discriminate].
    cbn in Hempty, Ht. subst s. discriminate.
  - destruct (truthy_false_inv _ Ht) as [-> | ->]; [|reflexivity].
    rewrite check_replacement_head by exact Ho. now rewrite Hempty.
Qed.

(** C10. Let the loop create, for an entity [a], a record whose
    [anonymized_text] is empty, and later reach an entity [b] of the same
    text. The lookup finds the empty string, which counts as nothing
    found: the generator is invoked for [b] on the current text, and the
    outcome of [b] is the generator's, not the recorded empty string. *)
Theorem empty_replacement_is_not_reused
    (a b : Entity.t) (mid : list Entity.t) (text1 text3 : string)
    (replacements1 replacements3 : list Replacement.t)
    (w1 w2 w3 : W) (r : Replacement.t) :
  _create_replacement mapping a text1 replacements1 w1 = (Ok r, w2) ->
  Replacement.anonymized_text r = ""%string ->
  anonymize_loop mapping mid (splice text1 r) (replacements1 ++ [r]) w2
  = (Ok (text3, replacements3), w3) ->
  Entity.text b = Entity.text a ->
  _check_replacement b replacements3 = Some ""%string
  /\ _create_replacement mapping b text3 replacements3 w3
     = (match fst (mapping text3 b (gen w3)) with
        | Ok s =>
            Ok (Replacement.mk (Entity.text b) (Entity.label b)
                  (Entity.start_index b) (Entity.end_index b) s)
        | Raise e => Raise e
        end,
        mkWorld (snd (mapping text3 b (gen w3)))
          (calls w3 ++ [mkCall text3 b (fst (mapping text3 b (gen w3)))])).
Proof.
  intros Hr Hempty Hloop Htext.
  apply anonymize_loop_records in Hloop.
  destruct Hloop as (more & -> & _).
  assert (Hcheck :
    _check_replacement b ((replacements1 ++ [r]) ++ more) = Some ""%string).
  { rewrite (check_replacement_text a b) by exact Htext.
    rewrite <- app_assoc. cbn [app].
    eapply check_replacement_after_empty; eassumption. }
  split; [exact Hcheck|].
  apply create_replacement_generate. now rewrite Hcheck.
Qed.

End Reuse.

(** ** Runs on concrete documents *)

(** C2: a span that ends before it starts and lies outside the document is
    processed like any other, and the call returns. *)
Lemma anonymize_backwards_entity_returns :
  (Entity.end_index Examples.backwards <= Entity.start_index Examples.backwards
   /\ Z.of_nat (String.length "abc") < Entity.start_index Examples.backwards)
  /\ fst (anonymize Examples.label_mapping "abc" [Examples.backwards]
            Examples.w0)
     = Ok ("abc[L]c", [Replacement.mk "zz" "L" 7 2 "[L]"]).
Proof.
  split; [cbn; lia | reflexivity].
Qed.

(** C2, amended, on that entity. *)
Lemma anonymize_accepts_any_offsets_witness :
  exists text' records w',
    anonymize Examples.label_mapping "abc" [Examples.backwards] Examples.w0
    = (Ok (text', records), w')
    /\ List.length records = 1%nat.
Proof.
  apply (anonymize_accepts_any_offsets Examples.label_mapping
           "abc" [Examples.backwards] Examples.w0).
  intros t e g. reflexivity.
Defined.

(** C3: two entities that start at the same offset give two records of
    equal [start_index]. *)
Lemma anonymize_equal_starts_not_strict :
  fst (anonymize Examples.label_mapping "abc"
         [Examples.short_span; Examples.long_span] Examples.w0)
  = Ok ("[M]]bc",
        [Replacement.mk "ab" "M" 0 2 "[M]"; Replacement.mk "a" "L" 0 1 "[L]"])
  /\ ~ StronglySorted Z.lt
         (map Replacement.start_index
            [Replacement.mk "ab" "M" 0 2 "[M]";
             Replacement.mk "a" "L" 0 1 "[L]"]).
Proof.
  split; [reflexivity|].
  cbn. intros H. apply StronglySorted_inv in H. destruct H as [_ H].
  apply Forall_inv in H. lia.
Qed.

(** C3, amended, on the worked example. *)
Lemma anonymize_records_sorted_witness :
  StronglySorted Z.le
    (map Replacement.start_index (Examples.alice_records "P" "P" "P"))
  /\ StronglySorted Z.lt
       (map Replacement.start_index (Examples.alice_records "P" "P" "P")).
Proof.
  destruct (anonymize_records_sorted Examples.name_mapping
              Examples.alice_doc (Examples.alice_entities "P" "P" "P")
              Examples.w0
              (snd (anonymize Examples.name_mapping Examples.alice_doc
                      (Examples.alice_entities "P" "P" "P") Examples.w0))
              "PersonX met PersonY. PersonX left."
              (Examples.alice_records "P" "P" "P") eq_refl)
    as [Hle Hlt].
  split; [exact Hle|].
  apply Hlt. cbn. repeat constructor; cbn; intuition lia.
Defined.

(** C4: a record keeps offsets and a text that do not fit the document. *)
Lemma anonymize_mismatched_record :
  fst (anonymize Examples.label_mapping "abc" [Examples.mismatched]
         Examples.w0)
  = Ok ("a[L]", [Replacement.mk "zz" "L" 1 5 "[L]"])
  /\ ~ valid_record "abc" (Replacement.mk "zz" "L" 1 5 "[L]").
Proof.
  split; [reflexivity|].
  unfold valid_record, valid_span. cbn. intros (_ & H & _). lia.
Qed.

(** C4, amended, on the worked example. *)
Lemma anonymize_records_copy_entities_witness :
  Permutation
    (map Replacement.source (Examples.alice_records "P" "P" "P"))
    (Examples.alice_entities "P" "P" "P")
  /\ Forall (valid_record Examples.alice_doc)
       (Examples.alice_records "P" "P" "P").
Proof.
  destruct (anonymize_records_copy_entities Examples.name_mapping
              Examples.alice_doc (Examples.alice_entities "P" "P" "P")
              Examples.w0
              (snd (anonymize Examples.name_mapping Examples.alice_doc
                      (Examples.alice_entities "P" "P" "P") Examples.w0))
              "PersonX met PersonY. PersonX left."
              (Examples.alice_records "P" "P" "P") eq_refl)
    as [Hperm Hvalid].
  split; [exact Hperm|].
  apply Hvalid.
  repeat constructor; unfold valid_entity, valid_span; cbn;
    (lia || reflexivity).
Defined.

(** C10, on a document where the right-hand [a] was blanked. *)
Lemma empty_replacement_is_not_reused_witness :
  _check_replacement Examples.a_left [Examples.blank_record] = Some ""%string
  /\ _create_replacement Examples.blank_mapping Examples.a_left "a "
       [Examples.blank_record] Examples.blank_world
     = (Ok (Replacement.mk "a" "X" 0 1 "Q"),
        mkWorld tt
          [mkCall "a a" Examples.a_right (Ok ""%string);
           mkCall "a " Examples.a_left (Ok "Q"%string)]).
Proof.
  apply (empty_replacement_is_not_reused Examples.blank_mapping
           Examples.a_right Examples.a_left [] "a a" "a "
           [] [Examples.blank_record]
           Examples.w0 Examples.blank_world Examples.blank_world
           Examples.blank_record);
    reflexivity.
Defined.

(** C1. Two entities of one text, a generator that blanks the first one it
    is asked about: the generator is asked again for the second, and the
    two records of the text [a] hold different replacements. *)
Theorem anonymize_empty_replacement_breaks_consistency :
  Entity.text Examples.a_left = Entity.text Examples.a_right
  /\ anonymize Examples.blank_mapping "a a"
       [Examples.a_left; Examples.a_right] Examples.w0
     = (Ok ("Q ",
            [Replacement.mk "a" "X" 0 1 "Q"; Replacement.mk "a" "X" 2 3 ""]),
        mkWorld tt
          [mkCall "a a" Examples.a_right (Ok ""%string);
           mkCall "a " Examples.a_left (Ok "Q"%string)])
  /\ ~ consistent
         [Replacement.mk "a" "X" 0 1 "Q"; Replacement.mk "a" "X" 2 3 ""].
Proof.
  split; [reflexivity|]. split; [reflexivity|].
  intros H.
  specialize (H (Replacement.mk "a" "X" 0 1 "Q")
                (Replacement.mk "a" "X" 2 3 "")).
  cbn in H. discriminate H; auto.
Qed.

(** A failing generator: the entity Carol is unknown to it, the call raises
    its exception, and the record made for Bob before that is not
    returned. *)
Example anonymize_unknown_name_raises :
  anonymize Examples.name_mapping "Carol met Bob."
    [Entity.mk "Bob" "P" 10 13; Entity.mk "Carol" "P" 0 5] Examples.w0
  = (Raise "KeyError"%string,
     mkWorld tt
       [mkCall "Carol met Bob." (Entity.mk "Bob" "P" 10 13)
          (Ok "PersonY"%string);
        mkCall "Carol met PersonY." (Entity.mk "Carol" "P" 0 5)
          (Raise "KeyError"%string)]).
Proof.
  reflexivity.
Qed.

(** ** Consistency, for generators that never answer the empty string *)

Lemma check_replacement_found
    (entity : Entity.t) (replacements : list Replacement.t) (s : string) :
  _check_replacement entity replacements = Some s ->
  exists r, In r replacements /\ Replacement.anonymized_text r = s.
Proof.
  unfold _check_replacement.
  destruct (filter _ replacements) as [|x l] eqn:Hf; [discriminate|].
  intros [= <-]. exists x. split; [|reflexivity].
  assert (Hin : In x (x :: l)) by now left.
  rewrite <- Hf in Hin. now apply filter_In in Hin.
Qed.

Section Consistency.
Context {Exn G : Type}.
Variable mapping : string -> Entity.t -> G -> Result Exn string * G.
Hypothesis mapping_nonempty :
  forall t e g s, fst (mapping t e g) = Ok s -> s <> ""%string.

Abbreviation W := (World Exn G).

Lemma settled_step
    (ent : Entity.t) (text : string) (replacements : list Replacement.t)
    (w w' : W) (r : Replacement.t) :
  settled replacements ->
  _create_replacement mapping ent text replacements w = (Ok r, w') ->
  settled (replacements ++ [r]).
Proof.
  intros Hinv Hr.
  pose proof (create_replacement_source _ _ _ _ _ _ _ Hr) as Hsrc.
  assert (Hnew :
    Replacement.anonymized_text r <> ""%string
    /\ _check_replacement ent (replacements ++ [r])
       = Some (Replacement.anonymized_text r)).
  { rewrite check_replacement_app.
    destruct (_check_replacement ent replacements) as [s|] eqn:Hc.
    - destruct (check_replacement_found _ _ _ Hc) as (r0 & Hin & Hs).
      destruct (Hinv r0 Hin) as [Hne _]. rewrite Hs in Hne.
      assert (Ht : Py.truthy (_check_replacement ent replacements) = true).
      { rewrite Hc. cbn. destruct (String.eqb_spec s ""); [contradiction|].
        reflexivity. }
      rewrite create_replacement_reuse in Hr by exact Ht.
      injection Hr as <- _. rewrite Hc. cbn. now split.
    - rewrite create_replacement_generate in Hr by now rewrite Hc.
      destruct (fst (mapping text ent (gen w))) as [s|e] eqn:Hm;
        [|discriminate].
      injection Hr as <- _. split.
      + cbn. eapply mapping_nonempty, Hm.
      + now apply check_replacement_head. }
  intros r' Hin. apply in_app_or in Hin. destruct Hin as [Hin | [<- | []]].
  - destruct (Hinv r' Hin) as [Hne Hc]. split; [exact Hne|].
    rewrite check_replacement_app. now rewrite Hc.
  - now rewrite Hsrc.
Qed.

Lemma settled_loop
    (l : list Entity.t) (text : string) (replacements : list Replacement.t)
    (w w' : W) (text' : string) (replacements' : list Replacement.t) :
  settled replacements ->
  anonymize_loop mapping l text replacements w
  = (Ok (text', replacements'), w') ->
  settled replacements'.
Proof.
  revert text replacements w.
  induction l as [|ent l IH]; intros text replacements w Hinv;
    cbn [anonymize_loop].
  - now intros [= _ <- _].
  - unfold bind.
    destruct (_create_replacement mapping ent text replacements w)
      as [[r|e] w1] eqn:Hr; [|discriminate].
    apply IH. eapply settled_step; eassumption.
Qed.

(** X1. The consistency law, for a generator that never answers the empty
    string: the records of a completed call hold one replacement per
    original text, whatever the labels and offsets. *)
Theorem anonymize_consistent
    (text : string) (entities : list Entity.t) (w w' : W)
    (text' : string) (records : list Replacement.t) :
  anonymize mapping text entities w = (Ok (text', records), w') ->
  consistent records.
Proof.
  intros H. apply anonymize_ok_inv in H.
  apply settled_loop in H; [|intros r []].
  intros r1 r2 H1 H2 Heq.
  apply in_rev in H1, H2.
  destruct (H r1 H1) as [_ Hc1]. destruct (H r2 H2) as [_ Hc2].
  rewrite (check_replacement_text (Replacement.source r2)) in Hc1
    by exact Heq.
  congruence.
Qed.

End Consistency.

(** X1, on the worked example, whose generator has no empty answer. *)
Lemma anonymize_consistent_witness :
  consistent (Examples.alice_records "P" "Q" "R").
Proof.
  apply (anonymize_consistent Examples.name_mapping) with
    (text := Examples.alice_doc)
    (entities := Examples.alice_entities "P" "Q" "R")
    (w := Examples.w0)
    (w' := snd (anonymize Examples.name_mapping Examples.alice_doc
                  (Examples.alice_entities "P" "Q" "R") Examples.w0))
    (text' := "PersonX met PersonY. PersonX left."%string).
  - intros t e g s. unfold Examples.name_mapping.
    destruct (Entity.text e =? "Alice")%string;
      [|destruct (Entity.text e =? "Bob")%string];
      cbn; intros [= <-]; discriminate.
  - reflexivity.
Defined.

(** ** Substrings of a concatenation *)

Lemma length_append (s x : string) :
  String.length (s ++ x) = (String.length s + String.length x)%nat.
Proof.
  induction s as [|c s IH]; cbn; [reflexivity | now rewrite IH].
Qed.

Lemma append_assoc (s x y : string) :
  ((s ++ x) ++ y = s ++ (x ++ y))%string.
Proof.
  induction s as [|c s IH]; cbn; [reflexivity | now rewrite IH].
Qed.

Lemma substring_all (s : string) : substring 0 (String.length s) s = s.
Proof.
  induction s as [|c s IH]; cbn; [reflexivity | now rewrite IH].
Qed.

Lemma substring_nil (n m : nat) : substring n m "" = ""%string.
Proof.
  destruct n, m; reflexivity.
Qed.

Lemma length_substring (n m : nat) (s : string) :
  (n + m <= String.length s)%nat -> String.length (substring n m s) = m.
Proof.
  revert n m. induction s as [|c s IH]; intros n m H; cbn in H.
  - assert (n = 0%nat /\ m = 0%nat) as [-> ->] by lia. reflexivity.
  - destruct n as [|n]; cbn.
    + destruct m as [|m]; cbn; [reflexivity|]. rewrite IH; lia.
    + apply IH. lia.
Qed.

(** A substring that ends inside [p] does not see what follows [p]. *)
Lemma substring_append_inside (n m : nat) (p x : string) :
  (n + m <= String.length p)%nat ->
  substring n m (p ++ x) = substring n m p.
Proof.
  revert n m. induction p as [|c p IH]; intros n m H; cbn in H.
  - assert (n = 0%nat /\ m = 0%nat) as [-> ->] by lia.
    cbn. now destruct x.
  - destruct n as [|n]; cbn.
    + destruct m as [|m]; cbn; [reflexivity|]. rewrite IH by lia. reflexivity.
    + apply IH. lia.
Qed.

(** A substring of a prefix is a substring of the whole. *)
Lemma substring_prefix (n m b : nat) (s : string) :
  (n + m <= b)%nat -> substring n m (substring 0 b s) = substring n m s.
Proof.
  revert n m b. induction s as [|c s IH]; intros n m b H.
  - now rewrite !substring_nil.
  - destruct b as [|b].
    + assert (n = 0%nat /\ m = 0%nat) as [-> ->] by lia. reflexivity.
    + cbn. destruct n as [|n].
      * destruct m as [|m]; cbn; [reflexivity|]. rewrite (IH 0%nat) by lia.
        reflexivity.
      * cbn. apply IH. lia.
Qed.

(** The rest of [p ++ x] from an offset inside [p]. *)
Lemma substring_append_rest (e : nat) (p x : string) :
  (e <= String.length p)%nat ->
  substring e (String.length (p ++ x) - e) (p ++ x)
  = (substring e (String.length p - e) p ++ x)%string.
Proof.
  revert e. induction p as [|c p IH]; intros e H; cbn in H.
  - assert (e = 0%nat) as -> by lia. cbn [append String.length].
    rewrite Nat.sub_0_r. apply substring_all.
  - destruct e as [|e].
    + rewrite !Nat.sub_0_r, !substring_all. reflexivity.
    + cbn. apply IH. lia.
Qed.

(** ** Slices at offsets inside the string *)

Lemma adjust_index_inside (i len : Z) :
  0 <= i <= len -> Py.adjust_index i len = i.
Proof.
  intros H. unfold Py.adjust_index. cbv zeta.
  assert (Hneg : (i <? 0) = false) by (apply Z.ltb_ge; lia).
  rewrite !Hneg. destruct (Z.leb_spec len i); lia.
Qed.

Lemma slice_inside (s : string) (i j : Z) :
  0 <= i <= j -> j <= Z.of_nat (String.length s) ->
  Py.slice s (Some i) (Some j)
  = substring (Z.to_nat i) (Z.to_nat (j - i)) s.
Proof.
  intros Hi Hj. unfold Py.slice.
  now rewrite !adjust_index_inside by lia.
Qed.

Lemma slice_rest (s : string) (i : Z) :
  0 <= i <= Z.of_nat (String.length s) ->
  Py.slice s (Some i) None
  = substring (Z.to_nat i) (String.length s - Z.to_nat i) s.
Proof.
  intros Hi. unfold Py.slice. rewrite adjust_index_inside by lia.
  f_equal. lia.
Qed.

Lemma length_slice_prefix (s : string) (b : Z) :
  0 <= b <= Z.of_nat (String.length s) ->
  String.length (Py.slice s (Some 0) (Some b)) = Z.to_nat b.
Proof.
  intros Hb. rewrite slice_inside by lia.
  rewrite length_substring; lia.
Qed.

(** Three ways to slice a text that starts with the first [b] characters
    of [s], at offsets that stay within these characters. *)
Lemma slice_prefix_of_rewritten (s x : string) (b i : Z) :
  0 <= i <= b -> b <= Z.of_nat (String.length s) ->
  Py.slice (Py.slice s (Some 0) (Some b) ++ x) None (Some i)
  = Py.slice s (Some 0) (Some i).
Proof.
  intros Hi Hb.
  pose proof (length_slice_prefix s b ltac:(lia)) as Hlen.
  rewrite <- slice_from_start.
  rewrite slice_inside by (rewrite ?length_append; lia).
  rewrite substring_append_inside by lia.
  rewrite (slice_inside s 0 b), (slice_inside s 0 i) by lia.
  apply substring_prefix. lia.
Qed.

Lemma slice_rest_of_rewritten (s x : string) (b i : Z) :
  0 <= i <= b -> b <= Z.of_nat (String.length s) ->
  Py.slice (Py.slice s (Some 0) (Some b) ++ x) (Some i) None
  = (Py.slice s (Some i) (Some b) ++ x)%string.
Proof.
  intros Hi Hb.
  pose proof (length_slice_prefix s b ltac:(lia)) as Hlen.
  rewrite slice_rest by (rewrite length_append; lia).
  rewrite substring_append_rest by lia. f_equal.
  rewrite Hlen, (slice_inside s 0 b), (slice_inside s i b) by lia.
  replace (Z.to_nat b - Z.to_nat i)%nat with (Z.to_nat (b - i)) by lia.
  apply substring_prefix. lia.
Qed.

Lemma slice_inside_of_rewritten (s x : string) (b i j : Z) :
  0 <= i <= j -> j <= b -> b <= Z.of_nat (String.length s) ->
  Py.slice (Py.slice s (Some 0) (Some b) ++ x) (Some i) (Some j)
  = Py.slice s (Some i) (Some j).
Proof.
  intros Hi Hj Hb.
  pose proof (length_slice_prefix s b ltac:(lia)) as Hlen.
  rewrite slice_inside by (rewrite ?length_append; lia).
  rewrite substring_append_inside by lia.
  rewrite (slice_inside s 0 b), (slice_inside s i j) by lia.
  apply substring_prefix. lia.
Qed.

Lemma append_nil_r (s : string) : (s ++ "")%string = s.
Proof.
  induction s as [|c s IH]; cbn; [reflexivity | now rewrite IH].
Qed.

(** ** Documents whose entities do not overlap *)

Lemma chain_le (pos : Z) (l : list Entity.t) (len : Z) :
  chain pos l len -> pos <= len.
Proof.
  revert pos. induction l as [|en l IH]; intros pos; cbn; [tauto|].
  intros (H1 & H2 & H3). apply IH in H3. lia.
Qed.

Lemma chain_app_inv (pos : Z) (l1 l2 : list Entity.t) (len : Z) :
  chain pos (l1 ++ l2) len -> exists mid, pos <= mid /\ chain mid l2 len.
Proof.
  revert pos. induction l1 as [|en l1 IH]; intros pos; cbn.
  - intros H. exists pos. split; [lia | exact H].
  - intros (H1 & H2 & H3). destruct (IH _ H3) as (mid & Hmid & Hc).
    exists mid. split; [lia | exact Hc].
Qed.

(** What [substitute] starts with: the document up to the first record, or
    up to its end when there is no record. *)
Lemma substitute_front
    (text : string) (records : list Replacement.t) (pos : Z) :
  0 <= pos ->
  chain pos (map Replacement.source records)
    (Z.of_nat (String.length text)) ->
  exists b x,
    pos <= b <= Z.of_nat (String.length text)
    /\ forall e, 0 <= e <= b ->
         substitute text e records
         = (Py.slice text (Some e) (Some b) ++ x)%string.
Proof.
  intros Hpos Hc. destruct records as [|r rest]; cbn in Hc.
  - exists (Z.of_nat (String.length text)), ""%string.
    split; [lia|]. intros e He. cbn [substitute].
    rewrite append_nil_r, slice_rest, slice_inside by lia.
    f_equal. lia.
  - destruct Hc as (H1 & H2 & H3). apply chain_le in H3.
    exists (Replacement.start_index r).
    eexists. split; [lia|]. intros e He. reflexivity.
Qed.

(** Splicing a record in front of the records already applied. *)
Lemma splice_substitute
    (text : string) (records : list Replacement.t) (r : Replacement.t) :
  0 <= Replacement.start_index r <= Replacement.end_index r ->
  chain (Replacement.end_index r) (map Replacement.source records)
    (Z.of_nat (String.length text)) ->
  splice (substitute text 0 records) r = substitute text 0 (r :: records).
Proof.
  intros Hr Hc.
  destruct (substitute_front text records (Replacement.end_index r)
              ltac:(lia) Hc)
    as (b & x & Hb & Hsub).
  rewrite (Hsub 0) by lia. unfold splice.
  rewrite slice_prefix_of_rewritten, slice_rest_of_rewritten by lia.
  cbn [substitute]. now rewrite (Hsub (Replacement.end_index r)) by lia.
Qed.

Lemma slice_substitute
    (text : string) (records : list Replacement.t) (s e : Z) :
  0 <= s <= e ->
  chain e (map Replacement.source records) (Z.of_nat (String.length text)) ->
  Py.slice (substitute text 0 records) (Some s) (Some e)
  = Py.slice text (Some s) (Some e).
Proof.
  intros Hs Hc.
  destruct (substitute_front text records e ltac:(lia) Hc)
    as (b & x & Hb & Hsub).
  rewrite (Hsub 0) by lia.
  apply slice_inside_of_rewritten; lia.
Qed.

(** Entities in ascending order of [start_index] that do not overlap follow
    one another. *)
Lemma chain_sorted (pos : Z) (l : list Entity.t) (len : Z) :
  StronglySorted
    (fun a b => Entity.start_index a <= Entity.start_index b) l ->
  non_overlapping l ->
  Forall (fun en => pos <= Entity.start_index en < Entity.end_index en
                    /\ Entity.end_index en <= len) l ->
  pos <= len ->
  chain pos l len.
Proof.
  intros Hs. revert pos.
  induction Hs as [|x rest Hrest IH Hx]; intros pos [Hnd Hdis] Hall Hpos;
    cbn; [exact Hpos|].
  inversion Hall as [|? ? Hhd Htl]; subst.
  inversion Hnd as [|? ? Hnotin Hnd']; subst.
  split; [lia|]. split; [lia|].
  apply IH; [| |lia].
  - split; [exact Hnd'|]. intros a b Ha Hb. apply Hdis; now right.
  - rewrite Forall_forall in *. intros y Hy.
    specialize (Htl y Hy). specialize (Hx y Hy).
    assert (Hxy : x <> y) by (intros ->; contradiction).
    destruct (Hdis x y (or_introl eq_refl) (or_intror Hy) Hxy); lia.
Qed.

Lemma non_overlapping_perm (l l' : list Entity.t) :
  Permutation l l' -> non_overlapping l -> non_overlapping l'.
Proof.
  intros Hp [Hnd Hdis]. split; [eapply Permutation_NoDup; eassumption|].
  intros a b Ha Hb. apply Hdis; eapply Permutation_in; try eassumption;
    now symmetry.
Qed.

(** The ascending sort of non-overlapping entities inside a document. *)
Lemma chain_sort_stable (document : string) (entities : list Entity.t) :
  Forall (in_bounds document) entities ->
  non_overlapping entities ->
  chain 0 (Py.sort_stable Entity.start_index (rev entities))
    (Z.of_nat (String.length document)).
Proof.
  intros Hb Hn.
  assert (Hp : Permutation entities
                 (Py.sort_stable Entity.start_index (rev entities))).
  { rewrite sort_stable_perm. apply Permutation_rev. }
  apply chain_sorted; [apply sort_stable_asc | | | lia].
  - eapply non_overlapping_perm; eassumption.
  - apply (Permutation_Forall Hp). eapply Forall_impl; [|exact Hb].
    intros en [H1 H2]. lia.
Qed.

Section NonOverlapping.
Context {Exn G : Type}.
Variable mapping : string -> Entity.t -> G -> Result Exn string * G.
Variable document : string.

Abbreviation W := (World Exn G).

(** What the loop keeps true when the entities still to process, read from
    the last to the first, and then the entities already processed, follow
    one another in the document: the text is the document with the
    processed spans replaced, and the generator is asked about an entity on
    a text that still holds the document's characters at its offsets. *)
Lemma anonymize_loop_substitute
    (l : list Entity.t) (text : string) (replacements : list Replacement.t)
    (w : W) :
  text = substitute document 0 (rev replacements) ->
  chain 0 (rev l ++ map Replacement.source (rev replacements))
    (Z.of_nat (String.length document)) ->
  (exists new,
      calls (snd (anonymize_loop mapping l text replacements w))
      = calls w ++ new
      /\ Forall (in_context document) new)
  /\ (forall text' replacements' w',
         anonymize_loop mapping l text replacements w
         = (Ok (text', replacements'), w') ->
         text' = substitute document 0 (rev replacements')).
Proof.
  revert text replacements w.
  induction l as [|ent rest IH]; intros text replacements w Htext Hchain.
  - cbn [anonymize_loop ret snd]. split.
    + exists []. split; [now rewrite app_nil_r | constructor].
    + now intros text' replacements' w' [= <- <- _].
  - cbn [rev] in Hchain. rewrite <- app_assoc in Hchain. cbn [app] in Hchain.
    destruct (chain_app_inv _ _ _ _ Hchain) as (mid & Hmid & Hc).
    cbn [chain] in Hc. destruct Hc as (H1 & H2 & H3).
    assert (Hctx : forall res,
      in_context document (@mkCall Exn text ent res)).
    { intros res. unfold in_context. cbn [call_text call_entity].
      rewrite Htext. apply slice_substitute; [lia | exact H3]. }
    assert (Hstep : forall r w1,
      _create_replacement mapping ent text replacements w = (Ok r, w1) ->
      splice text r = substitute document 0 (rev (replacements ++ [r]))
      /\ chain 0 (rev rest ++ map Replacement.source
                                (rev (replacements ++ [r])))
           (Z.of_nat (String.length document))).
    { intros r w1 Hr. apply create_replacement_source in Hr.
      rewrite rev_app_distr. cbn [rev app map]. rewrite Hr. split.
      - rewrite Htext. apply splice_substitute.
        + rewrite <- Hr in H1, H2. cbn in H1, H2. lia.
        + rewrite <- Hr in H3. exact H3.
      - exact Hchain. }
    cbn [anonymize_loop]. unfold bind.
    destruct (Py.truthy (_check_replacement ent replacements)) eqn:Ht.
    + rewrite create_replacement_reuse in * by exact Ht.
      destruct (Hstep _ _ eq_refl) as [Hs1 Hs2].
      exact (IH _ _ w Hs1 Hs2).
    + rewrite create_replacement_generate in * by exact Ht.
      destruct (fst (mapping text ent (gen w))) as [s|e] eqn:Hm.
      * destruct (Hstep _ _ eq_refl) as [Hs1 Hs2].
        destruct (IH _ _ (mkWorld (snd (mapping text ent (gen w)))
                            (calls w ++ [mkCall text ent (Ok s)]))
                    Hs1 Hs2) as [(new & Hcalls & Hnew) Hok].
        split; [|exact Hok].
        exists (mkCall text ent (Ok s) :: new). split.
        -- rewrite Hcalls. cbn [calls]. now rewrite <- app_assoc.
        -- constructor; [apply Hctx | exact Hnew].
      * split; [|discriminate].
        exists [mkCall text ent (Raise e)]. split; [reflexivity|].
        constructor; [apply Hctx | constructor].
Qed.

(** X2. When the entities are non-empty spans inside the document and no
    two of them overlap, a completed call returns the document with the
    span of every record replaced by the record's [anonymized_text] and
    every character outside the spans kept. *)
Theorem anonymize_non_overlapping
    (entities : list Entity.t) (w w' : W)
    (text' : string) (records : list Replacement.t) :
  Forall (in_bounds document) entities ->
  non_overlapping entities ->
  anonymize mapping document entities w = (Ok (text', records), w') ->
  text' = substitute document 0 records.
Proof.
  intros Hb Hn H. apply anonymize_ok_inv in H.
  rewrite <- (rev_involutive records).
  eapply (anonymize_loop_substitute _ document [] w); [| |exact H].
  - cbn [rev substitute]. rewrite slice_rest by lia.
    rewrite Nat.sub_0_r. symmetry. apply substring_all.
  - unfold Py.sorted. rewrite rev_involutive. cbn [rev map].
    rewrite app_nil_r. now apply chain_sort_stable.
Qed.

(** X3. Under the same conditions, and whether the call completes or not,
    every invocation of the generator is made on a text that holds, at the
    offsets of the entity asked about, the characters the document holds
    there: the replacements made so far have not moved them. *)
Theorem anonymize_generator_in_context
    (entities : list Entity.t) (w : W) :
  Forall (in_bounds document) entities ->
  non_overlapping entities ->
  exists new,
    calls (snd (anonymize mapping document entities w)) = calls w ++ new
    /\ Forall (in_context document) new.
Proof.
  intros Hb Hn.
  destruct (anonymize_loop_substitute
              (Py.sorted Entity.start_index true entities) document [] w)
    as [(new & Hcalls & Hnew) _].
  - cbn [rev substitute]. rewrite slice_rest by lia.
    rewrite Nat.sub_0_r. symmetry. apply substring_all.
  - unfold Py.sorted. rewrite rev_involutive. cbn [rev map].
    rewrite app_nil_r. now apply chain_sort_stable.
  - exists new. split; [|exact Hnew].
    unfold anonymize, bind.
    destruct (anonymize_loop mapping _ document [] w) as [[out|e] w1];
      exact Hcalls.
Qed.

End NonOverlapping.

(** ** The order in which the caller lists the entities *)

Section SortUnique.
Context {A : Type} (key : A -> Z).

Lemma insert_swap (x y : A) (l : list A) :
  key x <> key y ->
  Py.insert key x (Py.insert key y l) = Py.insert key y (Py.insert key x l).
Proof.
  intros Hxy. induction l as [|z l IH]; cbn [Py.insert].
  - destruct (Z.leb_spec (key x) (key y)), (Z.leb_spec (key y) (key x));
      try reflexivity; lia.
  - destruct (Z.leb_spec (key y) (key z)), (Z.leb_spec (key x) (key z));
      cbn [Py.insert];
      repeat match goal with
        | |- context [key ?a <=? key ?b] =>
            destruct (Z.leb_spec (key a) (key b))
        end;
      try reflexivity; try lia.
    now rewrite IH.
Qed.

(** Lists of pairwise different keys that hold the same elements sort to
    the same list. *)
Lemma sort_stable_unique (l l' : list A) :
  Permutation l l' -> NoDup (map key l) ->
  Py.sort_stable key l = Py.sort_stable key l'.
Proof.
  induction 1 as [|x l l' Hp IH|x y l|l l' l'' Hp1 IH1 Hp2 IH2];
    intros Hnd; cbn [Py.sort_stable].
  - reflexivity.
  - cbn [map] in Hnd. inversion Hnd; subst. now rewrite IH.
  - cbn [map] in Hnd. inversion Hnd as [|? ? Hnotin _]; subst.
    apply insert_swap. intros Heq. apply Hnotin. left. now symmetry.
  - rewrite IH1 by exact Hnd. apply IH2.
    eapply Permutation_NoDup; [|exact Hnd]. now apply Permutation_map.
Qed.

Lemma sorted_reverse_unique (l l' : list A) :
  Permutation l l' -> NoDup (map key l) ->
  Py.sorted key true l = Py.sorted key true l'.
Proof.
  intros Hp Hnd. unfold Py.sorted. f_equal.
  apply sort_stable_unique.
  - now rewrite <- !Permutation_rev.
  - eapply Permutation_NoDup; [|exact Hnd].
    apply Permutation_map, Permutation_rev.
Qed.

End SortUnique.

(** X4. When no two entities start at the same offset, the order in which
    the caller lists them is of no consequence: text, records, generator
    invocations and outcome are those of any other listing. *)
Theorem anonymize_order_irrelevant
    {Exn G : Type} (mapping : string -> Entity.t -> G -> Result Exn string * G)
    (text : string) (entities entities' : list Entity.t) (w : World Exn G) :
  NoDup (map Entity.start_index entities) ->
  Permutation entities entities' ->
  anonymize mapping text entities' w = anonymize mapping text entities w.
Proof.
  intros Hnd Hp. unfold anonymize.
  now rewrite (sorted_reverse_unique Entity.start_index entities entities').
Qed.

(** ** How often the generator is invoked *)

Lemma check_replacement_found_text
    (entity : Entity.t) (replacements : list Replacement.t) (s : string) :
  _check_replacement entity replacements = Some s ->
  In (Entity.text entity) (map Replacement.original_text replacements).
Proof.
  unfold _check_replacement.
  destruct (filter _ replacements) as [|x l] eqn:Hf; [discriminate|].
  intros _. assert (Hin : In x (x :: l)) by now left.
  rewrite <- Hf in Hin. apply filter_In in Hin. destruct Hin as [Hin Heq].
  apply String.eqb_eq in Heq. rewrite <- Heq. now apply in_map.
Qed.

Lemma check_replacement_none
    (entity : Entity.t) (replacements : list Replacement.t) :
  _check_replacement entity replacements = None ->
  ~ In (Entity.text entity) (map Replacement.original_text replacements).
Proof.
  unfold _check_replacement.
  destruct (filter _ replacements) as [|x l] eqn:Hf; [|discriminate].
  intros _ Hin. apply in_map_iff in Hin. destruct Hin as (r & Heq & Hin).
  assert (Hr : In r []).
  { rewrite <- Hf. apply filter_In. split; [exact Hin|].
    now apply String.eqb_eq. }
  exact Hr.
Qed.

Section GeneratorCalls.
Context {Exn G : Type}.
Variable mapping : string -> Entity.t -> G -> Result Exn string * G.
Hypothesis mapping_nonempty :
  forall t e g s, fst (mapping t e g) = Ok s -> s <> ""%string.

Abbreviation W := (World Exn G).
Abbreviation asked := (fun c : Call Exn => Entity.text (call_entity c)).

Lemma anonymize_loop_calls
    (l : list Entity.t) (text : string) (replacements : list Replacement.t)
    (w w' : W) (text' : string) (replacements' : list Replacement.t) :
  settled replacements ->
  anonymize_loop mapping l text replacements w
  = (Ok (text', replacements'), w') ->
  exists new,
    calls w' = calls w ++ new
    /\ NoDup (map asked new)
    /\ (forall t, In t (map asked new) ->
                  ~ In t (map Replacement.original_text replacements))
    /\ (forall t, In t (map Replacement.original_text replacements') <->
                  In t (map Replacement.original_text replacements)
                  \/ In t (map asked new))
    /\ Forall (fun c => In (call_entity c) l) new.
Proof.
  revert text replacements w.
  induction l as [|ent rest IH]; intros text replacements w Hset;
    cbn [anonymize_loop].
  - intros [= _ <- <-]. exists []. rewrite app_nil_r. cbn.
    repeat split; try constructor; tauto.
  - unfold bind.
    destruct (_create_replacement mapping ent text replacements w)
      as [[r|e] w1] eqn:Hr; [|discriminate].
    intros Hloop.
    pose proof (settled_step mapping mapping_nonempty _ _ _ _ _ _ Hset Hr)
      as Hset1.
    pose proof (create_replacement_source _ _ _ _ _ _ _ Hr) as Hsrc.
    assert (Ho : Replacement.original_text r = Entity.text ent)
      by now rewrite <- Hsrc.
    destruct (IH _ _ _ Hset1 Hloop) as (new & Hcalls & Hnd & Hfresh & Hall & Hin).
    assert (Htexts : forall t,
      In t (map Replacement.original_text (replacements ++ [r])) <->
      In t (map Replacement.original_text replacements)
      \/ t = Entity.text ent).
    { intros t. rewrite map_app, in_app_iff. cbn. rewrite Ho.
      intuition congruence. }
    destruct (Py.truthy (_check_replacement ent replacements)) eqn:Ht.
    + rewrite create_replacement_reuse in Hr by exact Ht.
      injection Hr as _ <-.
      assert (Hold : In (Entity.text ent)
                       (map Replacement.original_text replacements)).
      { destruct (_check_replacement ent replacements) as [s|] eqn:Hc;
          [|discriminate].
        eapply check_replacement_found_text, Hc. }
      exists new. split; [exact Hcalls|]. split; [exact Hnd|].
      split; [|split].
      * intros t Ht' Hin'. apply (Hfresh t Ht'). apply Htexts. now left.
      * intros t. rewrite Hall, Htexts. intuition (subst; auto).
      * eapply Forall_impl; [|exact Hin]. intros c Hc. now right.
    + assert (Hnone : _check_replacement ent replacements = None).
      { destruct (truthy_false_inv _ Ht) as [Hc|Hc]; [exact Hc|].
        destruct (check_replacement_found _ _ _ Hc) as (r0 & Hin0 & Hs).
        destruct (Hset r0 Hin0) as [Hne _]. contradiction. }
      apply check_replacement_none in Hnone.
      rewrite create_replacement_generate in Hr by exact Ht.
      injection Hr as _ <-. cbn [calls] in Hcalls.
      exists (mkCall text ent (fst (mapping text ent (gen w))) :: new).
      split; [now rewrite Hcalls, <- app_assoc|].
      cbn [map call_entity]. split; [|split; [|split]].
      * constructor; [|exact Hnd].
        intros Hin'. apply (Hfresh _ Hin'). apply Htexts. now right.
      * intros t [<- | Ht']; [exact Hnone|].
        intros Hin'. apply (Hfresh t Ht'). apply Htexts. now left.
      * intros t. rewrite Hall, Htexts. cbn [In]. intuition (subst; auto).
      * constructor; [now left|].
        eapply Forall_impl; [|exact Hin]. intros c Hc. now right.
Qed.

(** X5. With a generator that never answers the empty string, a completed
    call has invoked the generator exactly once for each distinct entity
    text: no text is asked about twice, every entity's text was asked
    about, and only supplied entities were asked about. *)
Theorem anonymize_generator_once_per_text
    (text : string) (entities : list Entity.t) (w w' : W)
    (text' : string) (records : list Replacement.t) :
  anonymize mapping text entities w = (Ok (text', records), w') ->
  exists new,
    calls w' = calls w ++ new
    /\ NoDup (map asked new)
    /\ (forall en, In en entities -> In (Entity.text en) (map asked new))
    /\ Forall (fun c => In (call_entity c) entities) new.
Proof.
  intros H.
  pose proof (anonymize_records_copy_entities _ _ _ _ _ _ _ H) as [Hperm _].
  apply anonymize_ok_inv in H.
  apply anonymize_loop_calls in H; [|intros r []].
  destruct H as (new & Hcalls & Hnd & _ & Hall & Hin).
  exists new. split; [exact Hcalls|]. split; [exact Hnd|]. split.
  - intros en Hen.
    assert (Hrec : In (Entity.text en)
                     (map Replacement.original_text (rev records))).
    { rewrite map_rev, <- in_rev.
      apply (Permutation_in _ (Permutation_sym Hperm)) in Hen.
      apply in_map_iff in Hen. destruct Hen as (r & <- & Hr).
      cbn. now apply in_map. }
    apply Hall in Hrec. cbn in Hrec. tauto.
  - eapply Forall_impl; [|exact Hin]. intros c Hc.
    eapply Permutation_in; [apply sorted_reverse_perm | exact Hc].
Qed.

End GeneratorCalls.

(** ** The worked example once more *)

Lemma alice_in_bounds (l1 l2 l3 : string) :
  Forall (in_bounds Examples.alice_doc) (Examples.alice_entities l1 l2 l3).
Proof.
  repeat constructor; cbn; lia.
Qed.

Lemma alice_non_overlapping (l1 l2 l3 : string) :
  non_overlapping (Examples.alice_entities l1 l2 l3).
Proof.
  split.
  - repeat constructor; cbn; intuition discriminate.
  - intros a b Ha Hb Hab. cbn in Ha, Hb.
    destruct Ha as [<-|[<-|[<-|[]]]], Hb as [<-|[<-|[<-|[]]]];
      cbn; try lia; contradiction.
Qed.

Lemma name_mapping_nonempty (t : string) (e : Entity.t) (g : unit) (s : string) :
  fst (Examples.name_mapping t e g) = Ok s -> s <> ""%string.
Proof.
  unfold Examples.name_mapping.
  destruct (Entity.text e =? "Alice")%string;
    [|destruct (Entity.text e =? "Bob")%string];
    cbn; intros [= <-]; discriminate.
Qed.

(** X2, on the worked example. *)
Lemma anonymize_non_overlapping_witness :
  "PersonX met PersonY. PersonX left."%string
  = substitute Examples.alice_doc 0 (Examples.alice_records "P" "Q" "R").
Proof.
  apply (anonymize_non_overlapping Examples.name_mapping Examples.alice_doc
           (Examples.alice_entities "P" "Q" "R") Examples.w0
           (snd (anonymize Examples.name_mapping Examples.alice_doc
                   (Examples.alice_entities "P" "Q" "R") Examples.w0))).
  - apply alice_in_bounds.
  - apply alice_non_overlapping.
  - reflexivity.
Defined.

(** X3, on the worked example. *)
Lemma anonymize_generator_in_context_witness :
  exists new,
    calls (snd (anonymize Examples.name_mapping Examples.alice_doc
                  (Examples.alice_entities "P" "Q" "R") Examples.w0))
    = calls Examples.w0 ++ new
    /\ Forall (in_context Examples.alice_doc) new.
Proof.
  apply (anonymize_generator_in_context Examples.name_mapping
           Examples.alice_doc (Examples.alice_entities "P" "Q" "R")
           Examples.w0).
  - apply alice_in_bounds.
  - apply alice_non_overlapping.
Defined.

(** X4, on the worked example listed back to front. *)
Lemma anonymize_order_irrelevant_witness :
  anonymize Examples.name_mapping Examples.alice_doc
    (rev (Examples.alice_entities "P" "Q" "R")) Examples.w0
  = anonymize Examples.name_mapping Examples.alice_doc
      (Examples.alice_entities "P" "Q" "R") Examples.w0.
Proof.
  apply (anonymize_order_irrelevant Examples.name_mapping Examples.alice_doc
           (Examples.alice_entities "P" "Q" "R")
           (rev (Examples.alice_entities "P" "Q" "R")) Examples.w0).
  - cbn. repeat constructor; cbn; intuition lia.
  - apply Permutation_rev.
Defined.

(** X5, on the worked example: two invocations for three entities. *)
Lemma anonymize_generator_once_per_text_witness :
  exists new,
    calls (snd (anonymize Examples.name_mapping Examples.alice_doc
                  (Examples.alice_entities "P" "Q" "R") Examples.w0))
    = calls Examples.w0 ++ new
    /\ NoDup (map (fun c => Entity.text (call_entity c)) new)
    /\ (forall en, In en (Examples.alice_entities "P" "Q" "R") ->
          In (Entity.text en)
             (map (fun c => Entity.text (call_entity c)) new))
    /\ Forall (fun c => In (call_entity c)
                           (Examples.alice_entities "P" "Q" "R")) new.
Proof.
  apply (anonymize_generator_once_per_text Examples.name_mapping
           name_mapping_nonempty Examples.alice_doc
           (Examples.alice_entities "P" "Q" "R") Examples.w0
           (snd (anonymize Examples.name_mapping Examples.alice_doc
                   (Examples.alice_entities "P" "Q" "R") Examples.w0))
           "PersonX met PersonY. PersonX left."
           (Examples.alice_records "P" "Q" "R")).
  reflexivity.
Defined.

(** * The pipeline *)

(** ** One file *)

Ltac pipeline_simpl H :=
  cbn [Pipeline.env Pipeline.anonymized_files_count Pipeline.printed
       Pipeline.written fst snd] in H.

(** Case analysis on the next call into the operating system. *)
Ltac pipeline_step H :=
  match type of H with
  | context [Pipeline.relpath ?D ?a ?b ?c] =>
      destruct (Pipeline.relpath D a b c) as [[?|?] ?]
  | context [Pipeline.makedirs ?D ?a ?c] =>
      destruct (Pipeline.makedirs D a c) as [[[]|?] ?]
  | context [Pipeline.write_file ?D ?a ?b ?c] =>
      destruct (Pipeline.write_file D a b c) as [[[]|?] ?]
  end;
  pipeline_simpl H; try discriminate H.

Section PipelineFile.
Context {Exn Sys : Type}.
Variable D : Pipeline.Deps Exn Sys.

Abbreviation St := (Pipeline.State Sys).

(** [_anonymize_file] leaves the counter and the written files alone. *)
Lemma anonymize_file_frame (file_path : string) (s : St) :
  Pipeline.anonymized_files_count
    (snd (Pipeline._anonymize_file D file_path s))
  = Pipeline.anonymized_files_count s
  /\ Pipeline.written (snd (Pipeline._anonymize_file D file_path s))
     = Pipeline.written s.
Proof.
  unfold Pipeline._anonymize_file, Pipeline.bind, Pipeline.call,
    Pipeline.print, Pipeline.ret.
  destruct (Pipeline.open_file D file_path (Pipeline.env s))
    as [[[text|]|e] s1]; cbn; try (split; reflexivity).
  destruct (Pipeline.extractor D text s1) as [[[entities|]|e] s2]; cbn;
    try (split; reflexivity).
  destruct (Pipeline.strategy D text entities s2) as [[out|e] s3]; cbn;
    split; reflexivity.
Qed.

(** The [try] statement never raises, and answers a text only when
    [_anonymize_file] returned that text and stripping it leaves
    something. *)
Lemma try_anonymize_file_spec (file_path : string) (s : St) :
  exists attempt s1,
    Pipeline.try_anonymize_file D file_path s = (Ok attempt, s1)
    /\ Pipeline.anonymized_files_count s1 = Pipeline.anonymized_files_count s
    /\ Pipeline.written s1 = Pipeline.written s
    /\ match attempt with
       | Some text =>
           Pipeline._anonymize_file D file_path s = (Ok text, s1)
           /\ PyStr.strip text <> ""%string
       | None =>
           Pipeline.env s1
           = Pipeline.env (snd (Pipeline._anonymize_file D file_path s))
           /\ (exists msg,
                  Pipeline.printed s1
                  = Pipeline.printed
                      (snd (Pipeline._anonymize_file D file_path s))
                    ++ [msg])
           /\ (forall text,
                  fst (Pipeline._anonymize_file D file_path s) = Ok text ->
                  PyStr.strip text = ""%string)
       end.
Proof.
  destruct (anonymize_file_frame file_path s) as [Hc Hw].
  unfold Pipeline.try_anonymize_file, Pipeline.try_except, Pipeline.bind.
  destruct (Pipeline._anonymize_file D file_path s) as [[text|e] s1];
    cbn [fst snd] in *.
  - unfold PyStr.is_empty.
    destruct (String.eqb_spec (PyStr.strip text) "") as [Hblank|Hblank].
    + eexists None, _. cbn. repeat split; try assumption.
      * eexists. reflexivity.
      * now intros text' [= <-].
    + exists (Some text), s1. cbn. repeat split; assumption.
  - eexists None, _. cbn. repeat split; try assumption.
    + eexists. reflexivity.
    + discriminate.
Qed.


(** A call into what the pipeline depends on leaves the counter and the
    written files alone. *)
Lemma call_frame {A : Type} (f : Sys -> Result Exn A * Sys) (s : St) :
  same_files s (snd (Pipeline.call f s)).
Proof.
  unfold Pipeline.call. destruct (f (Pipeline.env s)). now split.
Qed.

(** What a completed loop body has done: nothing, or counted one file and
    written it under the name made from the new count. *)
Lemma for_file_ok_inv
    (input_dir output_dir : string) (flatten : bool)
    (root file_name : string) (d d' : list (string * string)) (s s' : St) :
  Pipeline.for_file D input_dir output_dir flatten root file_name d s
  = (Ok d', s') ->
  (Pipeline.anonymized_files_count s' = Pipeline.anonymized_files_count s
   /\ Pipeline.written s' = Pipeline.written s /\ d' = d)
  \/ (exists text relative_path,
         Pipeline.anonymized_files_count s'
         = S (Pipeline.anonymized_files_count s)
         /\ Pipeline.written s'
            = Pipeline.written s
              ++ [(text,
                   Pipeline.output_file_path D output_dir flatten
                     relative_path
                     (Pipeline.output_file_name
                        (S (Pipeline.anonymized_files_count s))
                        (snd (Pipeline.splitext D file_name))))]).
Proof.
  destruct (try_anonymize_file_spec (Pipeline.join D root [file_name]) s)
    as (attempt & s1 & Htry & Hc & Hw & _).
  unfold Pipeline.for_file, Pipeline.bind. rewrite Htry.
  destruct attempt as [text|].
  - unfold Pipeline.count_file, Pipeline.call_write_file, Pipeline.ret.
    unfold Pipeline.call. intros H. pipeline_simpl H.
    destruct flatten; repeat pipeline_step H;
      right;
      match type of H with
      | context [Pipeline.output_file_path D _ _ ?rel _] => exists text, rel
      end;
      injection H as _ <-;
      cbn [Pipeline.anonymized_files_count Pipeline.written];
      rewrite Hc, Hw; split; reflexivity.
  - intros [= <- <-]. left. repeat split; assumption.
Qed.

End PipelineFile.

(** ** A whole run *)

Lemma numbered_app
    {Exn Sys : Type} (D : Pipeline.Deps Exn Sys)
    (output_dir : string) (flatten : bool) (count : nat)
    (k1 k2 : list (string * string * string)) :
  numbered D output_dir flatten count (k1 ++ k2)
  = numbered D output_dir flatten count k1
    ++ numbered D output_dir flatten (count + List.length k1) k2.
Proof.
  revert count. induction k1 as [|[[text rel] ext] k1 IH]; intros count.
  - cbn. now rewrite Nat.add_0_r.
  - cbn [numbered app List.length]. rewrite IH. do 3 f_equal. lia.
Qed.

Section PipelineRun.
Context {Exn Sys : Type}.
Variable D : Pipeline.Deps Exn Sys.
Variables input_dir output_dir : string.
Variable flatten : bool.

Abbreviation St := (Pipeline.State Sys).

Lemma kept_between_refl (ok : string -> Prop) (s s' : St) :
  Pipeline.anonymized_files_count s' = Pipeline.anonymized_files_count s ->
  Pipeline.written s' = Pipeline.written s ->
  kept_between D output_dir flatten ok s s'.
Proof.
  intros Hc Hw. exists []. cbn. rewrite Hc, Hw, app_nil_r.
  repeat split; [lia | constructor].
Qed.

Lemma kept_between_trans (ok : string -> Prop) (s1 s2 s3 : St) :
  kept_between D output_dir flatten ok s1 s2 ->
  kept_between D output_dir flatten ok s2 s3 ->
  kept_between D output_dir flatten ok s1 s3.
Proof.
  intros (k1 & Hc1 & Hw1 & Hok1) (k2 & Hc2 & Hw2 & Hok2).
  exists (k1 ++ k2). rewrite length_app, numbered_app.
  repeat split.
  - lia.
  - now rewrite Hw2, Hw1, Hc1, app_assoc.
  - apply Forall_app. now split.
Qed.

Lemma kept_between_impl (ok ok' : string -> Prop) (s s' : St) :
  (forall ext, ok ext -> ok' ext) ->
  kept_between D output_dir flatten ok s s' ->
  kept_between D output_dir flatten ok' s s'.
Proof.
  intros Himpl (kept & Hc & Hw & Hok). exists kept.
  repeat split; try assumption.
  eapply Forall_impl; [|exact Hok]. intros k. apply Himpl.
Qed.

Lemma for_file_kept
    (root file_name : string) (d d' : list (string * string)) (s s' : St) :
  Pipeline.for_file D input_dir output_dir flatten root file_name d s
  = (Ok d', s') ->
  kept_between D output_dir flatten
    (fun ext => ext = snd (Pipeline.splitext D file_name)) s s'.
Proof.
  intros H. apply for_file_ok_inv in H.
  destruct H as [(Hc & Hw & _) | (text & rel & Hc & Hw)].
  - now apply kept_between_refl.
  - exists [(text, rel, snd (Pipeline.splitext D file_name))]. cbn.
    repeat split; [lia | exact Hw | now repeat constructor].
Qed.

Lemma for_files_kept
    (root : string) (files : list string)
    (d d' : list (string * string)) (s s' : St) :
  Pipeline.for_files D input_dir output_dir flatten root files d s
  = (Ok d', s') ->
  kept_between D output_dir flatten
    (fun ext => exists file_name,
         In file_name files /\ ext = snd (Pipeline.splitext D file_name))
    s s'.
Proof.
  revert d s. induction files as [|file_name rest IH]; intros d s;
    cbn [Pipeline.for_files].
  - unfold Pipeline.ret. intros [= _ <-]. now apply kept_between_refl.
  - unfold Pipeline.bind.
    destruct (Pipeline.for_file D input_dir output_dir flatten root
                file_name d s) as [[d1|e] s1] eqn:Hfile; [|discriminate].
    intros Hrest. apply for_file_kept in Hfile. apply IH in Hrest.
    eapply kept_between_trans.
    + eapply kept_between_impl; [|exact Hfile].
      intros ext ->. exists file_name. split; [now left | reflexivity].
    + eapply kept_between_impl; [|exact Hrest].
      intros ext (f & Hf & ->). exists f. split; [now right | reflexivity].
Qed.

Lemma for_walk_kept
    (walked : list (string * list string))
    (d d' : list (string * string)) (s s' : St) :
  Pipeline.for_walk D input_dir output_dir flatten walked d s
  = (Ok d', s') ->
  kept_between D output_dir flatten (walked_ext D walked) s s'.
Proof.
  revert d s. induction walked as [|[root files] rest IH]; intros d s;
    cbn [Pipeline.for_walk].
  - unfold Pipeline.ret. intros [= _ <-]. now apply kept_between_refl.
  - unfold Pipeline.bind.
    destruct (Pipeline.for_files D input_dir output_dir flatten root
                files d s) as [[d1|e] s1] eqn:Hfiles; [|discriminate].
    intros Hrest. apply for_files_kept in Hfiles. apply IH in Hrest.
    eapply kept_between_trans.
    + eapply kept_between_impl; [|exact Hfiles].
      intros ext (f & Hf & ->). exists root, files, f.
      split; [now left | now split].
    + eapply kept_between_impl; [|exact Hrest].
      intros ext (r & fs & f & Hin & Hf & ->). exists r, fs, f.
      split; [now right | now split].
Qed.

(** X7. A completed run has advanced the counter of the instance by the
    number of files it kept, and has called [write_file] once for each of
    them, in order: the first under the name made from the count after
    the one the instance had reached, and so on with no gap, each with
    the extension of a file the walk yielded. *)
Theorem anonymize_numbers_files
    (walked : list (string * list string)) (s s' : St) (report : string) :
  Pipeline.anonymize D input_dir output_dir flatten walked s
  = (Ok report, s') ->
  exists kept : list (string * string * string),
    Pipeline.anonymized_files_count s'
    = (Pipeline.anonymized_files_count s + List.length kept)%nat
    /\ Pipeline.written s'
       = Pipeline.written s
         ++ numbered D output_dir flatten
              (Pipeline.anonymized_files_count s) kept
    /\ Forall (fun k => walked_ext D walked (snd k)) kept.
Proof.
  unfold Pipeline.anonymize, Pipeline.bind, Pipeline.raise.
  destruct (Pipeline.path_exists D input_dir (Pipeline.env s));
    cbn [negb]; [|discriminate].
  assert (Hs1 : same_files s
            (snd ((if negb (Pipeline.path_exists D output_dir
                              (Pipeline.env s))
                   then Pipeline.call (Pipeline.makedirs D output_dir)
                   else Pipeline.ret tt) s))).
  { destruct (Pipeline.path_exists D output_dir (Pipeline.env s));
      cbn [negb]; [now split | apply call_frame]. }
  destruct ((if negb (Pipeline.path_exists D output_dir (Pipeline.env s))
             then Pipeline.call (Pipeline.makedirs D output_dir)
             else Pipeline.ret tt) s) as [[[]|e] s1]; [|discriminate].
  pose proof (call_frame (Pipeline.abspath D input_dir) s1) as Hs2.
  destruct (Pipeline.call (Pipeline.abspath D input_dir) s1)
    as [[a|e] s2]; [|discriminate].
  pose proof (call_frame (Pipeline.abspath D output_dir) s2) as Hs3.
  destruct (Pipeline.call (Pipeline.abspath D output_dir) s2)
    as [[b|e] s3]; [|discriminate].
  destruct (a =? b)%string; [discriminate|].
  destruct (Pipeline.for_walk D input_dir output_dir flatten walked [] s3)
    as [[d|e] s4] eqn:Hwalk; [|discriminate].
  unfold Pipeline.ret. intros [= _ <-]. apply for_walk_kept in Hwalk.
  destruct Hwalk as (kept & Hc & Hw & Hok). exists kept.
  cbn [snd] in *.
  destruct Hs1 as [Hc1 Hw1], Hs2 as [Hc2 Hw2], Hs3 as [Hc3 Hw3].
  rewrite Hc, Hw. repeat split; [congruence | congruence | exact Hok].
Qed.

End PipelineRun.

(** ** Files that are passed over, and runs that go on *)

Section PipelineSkips.
Context {Exn Sys : Type}.
Variable D : Pipeline.Deps Exn Sys.
Variables input_dir output_dir : string.
Variable flatten : bool.

Abbreviation St := (Pipeline.State Sys).

(** X8. A file that [open_file] answers [None] for, and a file for which
    the extractor returns no entities ([None]), are passed over: two lines
    are printed, nothing is written or counted, the dictionary is as it
    was, and the environment is left as [open_file], respectively the
    extractor, left it: the strategy is not run. *)
Theorem for_file_skips_unreadable
    (root file_name : string) (d : list (string * string)) (s : St) :
  (forall e1,
      Pipeline.open_file D (Pipeline.join D root [file_name]) (Pipeline.env s)
      = (Ok None, e1) ->
      Pipeline.for_file D input_dir output_dir flatten root file_name d s
      = (Ok d,
         Pipeline.mkState (Pipeline.anonymized_files_count s) e1
           (Pipeline.printed s
            ++ [("Skipping file " ++ Pipeline.join D root [file_name]
                 ++ ": Failed to read or file is empty.")%string]
            ++ [("Skipping file " ++ Pipeline.join D root [file_name]
                 ++ ": Anonymized text is empty.")%string])
           (Pipeline.written s)))
  /\ (forall text e1 e2,
         Pipeline.open_file D (Pipeline.join D root [file_name])
           (Pipeline.env s)
         = (Ok (Some text), e1) ->
         Pipeline.extractor D text e1 = (Ok None, e2) ->
         Pipeline.for_file D input_dir output_dir flatten root file_name d s
         = (Ok d,
            Pipeline.mkState (Pipeline.anonymized_files_count s) e2
              (Pipeline.printed s
               ++ [("Skipping file " ++ Pipeline.join D root [file_name]
                    ++ ": Entity extraction returned None.")%string]
               ++ [("Skipping file " ++ Pipeline.join D root [file_name]
                    ++ ": Anonymized text is empty.")%string])
              (Pipeline.written s))).
Proof.
  split.
  - intros e1 Hopen.
    unfold Pipeline.for_file, Pipeline.try_anonymize_file,
      Pipeline.try_except, Pipeline._anonymize_file, Pipeline.bind,
      Pipeline.call.
    rewrite Hopen. cbn. now rewrite <- app_assoc.
  - intros text e1 e2 Hopen Hextract.
    unfold Pipeline.for_file, Pipeline.try_anonymize_file,
      Pipeline.try_except, Pipeline._anonymize_file, Pipeline.bind,
      Pipeline.call.
    rewrite Hopen. cbn. rewrite Hextract. cbn. now rewrite <- app_assoc.
Qed.

(** X9. The two refusals of [anonymize]: an input directory that does not
    exist, and an output directory that exists and has the absolute path
    of the input directory. Each raises the [ValueError] of the source
    with the instance and the written files untouched, and no file is
    looked at. *)
Theorem anonymize_refuses_directories
    (walked : list (string * list string)) (s : St) :
  (Pipeline.path_exists D input_dir (Pipeline.env s) = false ->
   Pipeline.anonymize D input_dir output_dir flatten walked s
   = (Raise (Pipeline.ValueError D
               ("Input directory '" ++ input_dir
                ++ "' does not exist.")%string),
      s))
  /\ (forall a e1 e2,
         Pipeline.path_exists D input_dir (Pipeline.env s) = true ->
         Pipeline.path_exists D output_dir (Pipeline.env s) = true ->
         Pipeline.abspath D input_dir (Pipeline.env s) = (Ok a, e1) ->
         Pipeline.abspath D output_dir e1 = (Ok a, e2) ->
         Pipeline.anonymize D input_dir output_dir flatten walked s
         = (Raise (Pipeline.ValueError D
                     "Input and output directories cannot be the same."),
            Pipeline.mkState (Pipeline.anonymized_files_count s) e2
              (Pipeline.printed s) (Pipeline.written s))).
Proof.
  split.
  - intros Hin. unfold Pipeline.anonymize. now rewrite Hin.
  - intros a e1 e2 Hin Hout Ha Hb.
    unfold Pipeline.anonymize, Pipeline.bind, Pipeline.call, Pipeline.ret.
    rewrite Hin. cbn [negb]. rewrite Hout. cbn [negb]. rewrite Ha.
    cbn [Pipeline.env]. rewrite Hb. now rewrite String.eqb_refl.
Qed.




End PipelineSkips.

(** ** Names of the output files *)

(** The digits of a number end where the underscore begins. *)
Lemma string_of_uint_underscore (u u' : Decimal.uint) (x x' : string) :
  (DecimalString.NilEmpty.string_of_uint u ++ String "_" x
   = DecimalString.NilEmpty.string_of_uint u' ++ String "_" x')%string ->
  u = u' /\ x = x'.
Proof.
  revert u' x x'.
  induction u as [|u IH|u IH|u IH|u IH|u IH|u IH|u IH|u IH|u IH|u IH];
    intros u' x x' H; destruct u'; cbn in H; try discriminate H;
    try (injection H as H; destruct (IH _ _ _ H) as [-> ->];
         split; reflexivity).
  injection H as ->. split; reflexivity.
Qed.

Lemma append_inj_l (p x y : string) : (p ++ x = p ++ y)%string -> x = y.
Proof.
  induction p as [|c p IH]; cbn; [tauto|]. intros [= H]. now apply IH.
Qed.

(** X11. The name of an output file determines the count it was made from
    and the extension: two files counted differently never get the same
    name, whatever their extensions are. *)
Theorem output_file_name_injective (n n' : nat) (ext ext' : string) :
  Pipeline.output_file_name n ext = Pipeline.output_file_name n' ext' ->
  n = n' /\ ext = ext'.
Proof.
  unfold Pipeline.output_file_name, PyStr.of_nat. intros H.
  rewrite !append_assoc in H. apply append_inj_l in H.
  change ("_anony" ++ ext)%string with (String "_" ("anony" ++ ext)) in H.
  change ("_anony" ++ ext')%string with (String "_" ("anony" ++ ext')) in H.
  apply string_of_uint_underscore in H. destruct H as [Hn Hext].
  split.
  - now apply DecimalNat.Unsigned.to_uint_inj.
  - eapply append_inj_l, Hext.
Qed.

(** ** A run in the small environment *)


(** X7, on a walk that yields one readable and one unreadable file. *)
Lemma anonymize_numbers_files_witness :
  exists kept : list (string * string * string),
    Pipeline.anonymized_files_count
      (snd (Pipeline.anonymize PipelineExamples.deps "in" "out" true
              PipelineExamples.walked PipelineExamples.s0))
    = (0 + List.length kept)%nat
    /\ Pipeline.written
         (snd (Pipeline.anonymize PipelineExamples.deps "in" "out" true
                 PipelineExamples.walked PipelineExamples.s0))
       = [] ++ numbered PipelineExamples.deps "out" true 0 kept
    /\ Forall (fun k => walked_ext PipelineExamples.deps
                          PipelineExamples.walked (snd k)) kept.
Proof.
  apply (anonymize_numbers_files PipelineExamples.deps "in" "out" true
           PipelineExamples.walked PipelineExamples.s0
           (snd (Pipeline.anonymize PipelineExamples.deps "in" "out" true
                   PipelineExamples.walked PipelineExamples.s0))
           "in/a.txt:out/file1_anony.txt").
  vm_compute. reflexivity.
Defined.


(** X11, on the first and the tenth file of an instance. *)
Lemma output_file_name_injective_witness :
  1%nat = 1%nat /\ ".txt"%string = ".txt"%string.
Proof.
  apply (output_file_name_injective 1 1 ".txt" ".txt"). reflexivity.
Defined.

(** X8, on the file that cannot be read. *)
Lemma for_file_skips_unreadable_witness :
  Pipeline.for_file PipelineExamples.deps "in" "out" true "in" "b.txt" []
    PipelineExamples.s0
  = (Ok [],
     Pipeline.mkState 0 Examples.w0
       ([] ++ ["Skipping file in/b.txt: Failed to read or file is empty."%string]
           ++ ["Skipping file in/b.txt: Anonymized text is empty."%string])
       []).
Proof.
  apply (proj1 (for_file_skips_unreadable PipelineExamples.deps
                  "in" "out" true "in" "b.txt" [] PipelineExamples.s0)).
  reflexivity.
Defined.

(** X9, on a directory that does not exist and on one directory given
    twice. *)
Lemma anonymize_refuses_directories_witness :
  Pipeline.anonymize PipelineExamples.deps "nowhere" "out" true
    PipelineExamples.walked PipelineExamples.s0
  = (Raise "ValueError: Input directory 'nowhere' does not exist."%string,
     PipelineExamples.s0)
  /\ Pipeline.anonymize PipelineExamples.deps "in" "in" true
       PipelineExamples.walked PipelineExamples.s0
     = (Raise
          "ValueError: Input and output directories cannot be the same."%string,
        PipelineExamples.s0).
Proof.
  split.
  - apply (proj1 (anonymize_refuses_directories PipelineExamples.deps
                    "nowhere" "out" true PipelineExamples.walked
                    PipelineExamples.s0)).
    reflexivity.
  - apply (proj2 (anonymize_refuses_directories PipelineExamples.deps
                    "in" "in" true PipelineExamples.walked
                    PipelineExamples.s0)
             "/in"%string Examples.w0 Examples.w0);
      reflexivity.
Defined.
